(** * HOTP / TOTP (package otp): shallow embedding and verification

    The development follows [otp.go]:
    - [HOTPCode]          RFC 4226 code generation,
    - [timeSteps]         time-step mapping,
    - [TOTPCode]          RFC 6238 code generation,
    - [ValidateTOTPCode]  window search with the [LastT] replay floor.

    Go's fixed-width integers are integers of [Z] with the wrap-around
    written out ([int] is taken to be 64 bits wide, as on the 64-bit
    ports of Go).  Run-time panics and loops that do not stop are explicit
    in the type [outcome]. *)

From Stdlib Require Import ZArith List Lia Bool Strings.Byte String.
Import ListNotations.
Open Scope Z_scope.

(** ** Go scalars *)

Module Go.

(** Run-time panics the program can raise. *)
Inductive panic : Type :=
| DivideByZero        (* integer divide by zero *)
| IndexOutOfRange.    (* index or slice bounds out of range *)

(** What running a piece of code gives: a value, a panic, or no answer
    within the number of loop iterations granted. *)
Inductive outcome (A : Type) : Type :=
| Ret (a : A)
| Panic (p : panic)
| OutOfFuel.
Arguments Ret {A} a.
Arguments Panic {A} p.
Arguments OutOfFuel {A}.

Definition bind {A B : Type} (m : outcome A) (f : A -> outcome B) : outcome B :=
  match m with
  | Ret a => f a
  | Panic p => Panic p
  | OutOfFuel => OutOfFuel
  end.

Definition min_int64 : Z := - 2 ^ 63.
Definition max_int64 : Z := 2 ^ 63 - 1.

(** Conversion to (and arithmetic in) [int64] / [int]: two's complement. *)
Definition int64 (x : Z) : Z := (x + 2 ^ 63) mod 2 ^ 64 - 2 ^ 63.
Definition int (x : Z) : Z := int64 x.
(** Conversions to the unsigned types. *)
Definition uint64 (x : Z) : Z := x mod 2 ^ 64.
Definition uint32 (x : Z) : Z := x mod 2 ^ 32.
Definition uint8 (x : Z) : Z := x mod 2 ^ 8.

Definition in_int64 (x : Z) : Prop := min_int64 <= x <= max_int64.
Definition in_uint32 (x : Z) : Prop := 0 <= x < 2 ^ 32.

(** [a / b] on [int64]: truncated quotient, panics on a zero divisor. *)
Definition div_int64 (a b : Z) : outcome Z :=
  if b =? 0 then Panic DivideByZero else Ret (int64 (Z.quot a b)).

(** [a % b] on [uint32]. *)
Definition rem_uint32 (a b : Z) : outcome Z :=
  if b =? 0 then Panic DivideByZero else Ret (Z.rem a b).

(** Bytes. *)
Definition b2z (b : byte) : Z := Z.of_N (Byte.to_N b).
Definition z2b (z : Z) : byte :=
  match Byte.of_N (Z.to_N (uint8 z)) with
  | Some b => b
  | None => x00
  end.

Definition len {A : Type} (s : list A) : Z := Z.of_nat (List.length s).

(** [s[i]] on a byte slice. *)
Definition index (s : list byte) (i : Z) : outcome byte :=
  if (0 <=? i) && (i <? len s)
  then Ret (nth (Z.to_nat i) s x00)
  else Panic IndexOutOfRange.

(** [s[lo:hi]]; the slice's capacity is taken to be its length. *)
Definition slice (s : list byte) (lo hi : Z) : outcome (list byte) :=
  if (0 <=? lo) && (lo <=? hi) && (hi <=? len s)
  then Ret (firstn (Z.to_nat (hi - lo)) (skipn (Z.to_nat lo) s))
  else Panic IndexOutOfRange.

End Go.
Export Go.

Declare Scope go_scope.
Delimit Scope go_scope with go.
Notation "x <- m ;; k" := (Go.bind m (fun x => k))
  (at level 100, m at next level, right associativity) : go_scope.

(** ** encoding/binary, big endian *)

Module BigEndian.

(** [PutUint64]: the eight bytes of [v], most significant first. *)
Definition PutUint64 (v : Z) : list byte :=
  [ z2b (Z.shiftr v 56); z2b (Z.shiftr v 48); z2b (Z.shiftr v 40);
    z2b (Z.shiftr v 32); z2b (Z.shiftr v 24); z2b (Z.shiftr v 16);
    z2b (Z.shiftr v 8);  z2b v ].

(** [PutUint32]. *)
Definition PutUint32 (v : Z) : list byte :=
  [ z2b (Z.shiftr v 24); z2b (Z.shiftr v 16); z2b (Z.shiftr v 8); z2b v ].

(** [Uint32 b]: reads [b[0..3]]; panics when [b] is shorter. *)
Definition Uint32 (b : list byte) : outcome Z :=
  match b with
  | b0 :: b1 :: b2 :: b3 :: _ =>
      Ret (Z.lor (Z.lor (Z.lor (b2z b3) (Z.shiftl (b2z b2) 8))
                        (Z.shiftl (b2z b1) 16))
                 (Z.shiftl (b2z b0) 24))
  | _ => Panic IndexOutOfRange
  end.

(** [binary.Write(w, binary.BigEndian, value)] for an [int64] value:
    the bytes handed to [w]. *)
Definition Write_int64 (value : Z) : list byte := PutUint64 (uint64 value).

End BigEndian.

(** ** hash.Hash, crypto/sha1, crypto/hmac *)

(** A hash provider [func() hash.Hash], by what the hashes it creates
    compute: the digest of the bytes written, and the block size. *)
Record Hash : Type := mkHash {
  BlockSize : nat;
  Sum : list byte -> list byte
}.

Module sha1.

Definition mask32 : Z := 0xffffffff.
Definition add32 (a b : Z) : Z := uint32 (a + b).
Definition rotl (n : Z) (x : Z) : Z :=
  Z.lor (uint32 (Z.shiftl x n)) (Z.shiftr x (32 - n)).
Definition not32 (x : Z) : Z := Z.lxor x mask32.

Definition word (b0 b1 b2 b3 : byte) : Z :=
  Z.lor (Z.lor (Z.lor (b2z b3) (Z.shiftl (b2z b2) 8)) (Z.shiftl (b2z b1) 16))
        (Z.shiftl (b2z b0) 24).

Fixpoint words (bs : list byte) : list Z :=
  match bs with
  | b0 :: b1 :: b2 :: b3 :: rest => word b0 b1 b2 b3 :: words rest
  | _ => []
  end.

(** Message schedule: [w] holds the sixteen latest words, oldest first. *)
Fixpoint schedule (n : nat) (w : list Z) : list Z :=
  match n with
  | O => []
  | S n' =>
      let x := rotl 1 (Z.lxor (Z.lxor (nth 13 w 0) (nth 8 w 0))
                              (Z.lxor (nth 2 w 0) (nth 0 w 0))) in
      x :: schedule n' (tl w ++ [x])
  end.

Record state : Type := mkState { h0 : Z; h1 : Z; h2 : Z; h3 : Z; h4 : Z }.

Definition init : state :=
  mkState 0x67452301 0xEFCDAB89 0x98BADCFE 0x10325476 0xC3D2E1F0.

Definition round (s : state) (iw : nat * Z) : state :=
  let '(i, w) := iw in
  let '(mkState a b c d e) := s in
  let '(f, k) :=
    if (i <? 20)%nat then (Z.lor (Z.land b c) (Z.land (not32 b) d), 0x5A827999)
    else if (i <? 40)%nat then (Z.lxor (Z.lxor b c) d, 0x6ED9EBA1)
    else if (i <? 60)%nat
         then (Z.lor (Z.land (Z.lor b c) d) (Z.land b c), 0x8F1BBCDC)
    else (Z.lxor (Z.lxor b c) d, 0xCA62C1D6) in
  let t := add32 (add32 (add32 (add32 (rotl 5 a) f) e) w) k in
  mkState t a (rotl 30 b) c d.

Definition block (s : state) (chunk : list byte) : state :=
  let w16 := words chunk in
  let w := w16 ++ schedule 64 w16 in
  let r := fold_left round (combine (seq 0 80) w) s in
  mkState (add32 (h0 s) (h0 r)) (add32 (h1 s) (h1 r)) (add32 (h2 s) (h2 r))
          (add32 (h3 s) (h3 r)) (add32 (h4 s) (h4 r)).

Fixpoint blocks (n : nat) (s : state) (p : list byte) : state :=
  match n with
  | O => s
  | S n' => blocks n' (block s (firstn 64 p)) (skipn 64 p)
  end.

(** Padding: 0x80, zeros up to 56 mod 64, then the bit length on 8 bytes. *)
Definition pad (m : list byte) : list byte :=
  let l := len m in
  m ++ [x80] ++ repeat x00 (Z.to_nat ((55 - l) mod 64))
    ++ BigEndian.PutUint64 (uint64 (8 * l)).

Definition digest (s : state) : list byte :=
  BigEndian.PutUint32 (h0 s) ++ BigEndian.PutUint32 (h1 s)
    ++ BigEndian.PutUint32 (h2 s) ++ BigEndian.PutUint32 (h3 s)
    ++ BigEndian.PutUint32 (h4 s).

Definition Sum20 (m : list byte) : list byte :=
  let p := pad m in
  digest (blocks (Nat.div (List.length p) 64) init p).

(** [sha1.New]. *)
Definition New : Hash := mkHash 64 Sum20.

End sha1.

Module hmac.

Definition xor_byte (c : Z) (b : byte) : byte := z2b (Z.lxor (b2z b) c).

(** [hmac.New(h, key)] followed by [Write(msg)] and [Sum(nil)]: a key
    longer than a block is hashed first, then copied into the zeroed
    [ipad] and [opad] of one block each. *)
Definition Sum (h : Hash) (key msg : list byte) : list byte :=
  let key' := if (BlockSize h <? List.length key)%nat then Sum h key else key in
  let k := firstn (BlockSize h) (key' ++ repeat x00 (BlockSize h)) in
  let ipad := map (xor_byte 0x36) k in
  let opad := map (xor_byte 0x5c) k in
  Sum h (opad ++ Sum h (ipad ++ msg)).

End hmac.

(** ** time: the parts of Go's [time] package the program uses *)

Module time.

(** A [time.Time] value, by its wall clock reading: [sec] counts the
    seconds since January 1 of year 1 (an [int64]), [nsec] the
    nanoseconds within the second, in [0, 999999999]. *)
Record Time : Type := mkTime { sec : Z; nsec : Z }.

Definition unixToInternal : Z := 62135596800.
Definition internalToUnix : Z := - unixToInternal.

(** A [time.Duration] is an [int64] count of nanoseconds. *)
Definition Second : Z := 1000000000.

(** [time.Unix(s, 0)]. *)
Definition Unix (s : Z) : Time := mkTime (int64 (s + unixToInternal)) 0.

(** The method [t.Unix()]. *)
Definition Unix_of (t : Time) : Z := int64 (sec t + internalToUnix).

(** [addSec]: the sum saturates instead of wrapping around. *)
Definition addSec (s d : Z) : Z :=
  let sum := int64 (s + d) in
  if Bool.eqb (s <? sum) (0 <? d) then sum
  else if 0 <? d then max_int64
  else - max_int64.

(** The method [t.Add(d)]. *)
Definition Add (t : Time) (d : Z) : Time :=
  let dsec := Z.quot d 1000000000 in
  let n := nsec t + Z.rem d 1000000000 in
  if 1000000000 <=? n then mkTime (addSec (sec t) (int64 (dsec + 1))) (n - 1000000000)
  else if n <? 0 then mkTime (addSec (sec t) (int64 (dsec - 1))) (n + 1000000000)
  else mkTime (addSec (sec t) dsec) n.

End time.
Export time.

(** ** package otp *)

(** [type Digits uint32] and its common configurations. *)
Definition SixDigits : Z := 1000000.
Definition SevenDigits : Z := SixDigits * 10.
Definition EightDigits : Z := SevenDigits * 10.

Definition DefaultStepSizeSeconds : Z := 30.

(** [HOTPCode(hashProvider, key, digits, value)]. *)
Definition HOTPCode (hashProvider : Hash) (key : list byte) (digits : Z)
                    (value : Z) : outcome Z :=
  (let sum := hmac.Sum hashProvider key (BigEndian.Write_int64 value) in
   last <- index sum (len sum - 1) ;;
   let offset := Z.land (b2z last) 0x0f in
   window <- slice sum offset (uint8 (offset + 4)) ;;
   word <- BigEndian.Uint32 window ;;
   let snip := Z.land word 0x7fffffff in
   code <- rem_uint32 snip (uint32 digits) ;;
   Ret (int code))%go.

(** [timeSteps(stepSize, t)]. *)
Definition timeSteps (stepSize : Z) (t : Time) : outcome Z :=
  (q <- div_int64 (Unix_of t) (int64 stepSize) ;;
   Ret (int q))%go.

(** [TOTPCode(hashProvider, key, digits, stepSizeSeconds, t)]. *)
Definition TOTPCode (hashProvider : Hash) (key : list byte) (digits : Z)
                    (stepSizeSeconds : Z) (t : Time) : outcome Z :=
  (steps <- timeSteps stepSizeSeconds t ;;
   HOTPCode hashProvider key digits (int64 steps))%go.

(** [type TOTPValidator struct]; a nil [HashProvider] is [None]. *)
Record TOTPValidator : Type := mkValidator {
  Key : list byte;
  StepSizeSeconds : Z;
  PastTolerance : Z;
  FutureTolerance : Z;
  LastT : Z;
  HashProvider : option Hash;
  Digits : Z
}.

(** Code running against the validator behind the receiver [tc]: it
    sees the current validator and hands back the validator it leaves. *)
Definition M (A : Type) : Type := TOTPValidator -> outcome A * TOTPValidator.

Definition ret {A : Type} (a : A) : M A := fun tc => (Ret a, tc).

Definition bindM {A B : Type} (m : M A) (f : A -> M B) : M B :=
  fun tc =>
    match m tc with
    | (Ret a, tc') => f a tc'
    | (Panic p, tc') => (Panic p, tc')
    | (OutOfFuel, tc') => (OutOfFuel, tc')
    end.

(** Reading a field through the receiver. *)
Definition get {A : Type} (field : TOTPValidator -> A) : M A :=
  fun tc => (Ret (field tc), tc).

(** Running code that does not touch the validator. *)
Definition lift {A : Type} (o : outcome A) : M A := fun tc => (o, tc).

Declare Scope tc_scope.
Delimit Scope tc_scope with tc.
Notation "x <- m ;; k" := (bindM m (fun x => k))
  (at level 100, m at next level, right associativity) : tc_scope.

(** The loop [for t := tMin; t <= tMax; t++] of [ValidateTOTPCode],
    started at [t]: [Some t] when the body returns [true, t], [None] when
    the loop is left because [t <= tMax] fails.  [fuel] bounds the number
    of times the loop condition is tested. *)
Fixpoint search (fuel : nat) (hashProvider : Hash) (digits : Z)
                (tMax code : Z) (t : Z) : M (option Z) :=
  match fuel with
  | O => lift OutOfFuel
  | S fuel' =>
      if t <=? tMax then
        (lastT <- get LastT ;;
         if t <=? lastT then
           search fuel' hashProvider digits tMax code (int (t + 1))
         else
           key <- get Key ;;
           c <- lift (HOTPCode hashProvider key digits (int64 t)) ;;
           if c =? code then ret (Some t)
           else search fuel' hashProvider digits tMax code (int (t + 1)))%tc
      else ret None
  end.

(** [(tc *TOTPValidator) ValidateTOTPCode(now, code)]. *)
Definition ValidateTOTPCode (fuel : nat) (now : Time) (code : Z)
  : M (bool * Z) :=
  (hp <- get HashProvider ;;
   let hashProvider := match hp with None => sha1.New | Some h => h end in
   d <- get Digits ;;
   let digits := if d =? 0 then SixDigits else d in
   s <- get StepSizeSeconds ;;
   let stepSizeSeconds := if s =? 0 then DefaultStepSizeSeconds else s in
   past <- get PastTolerance ;;
   tMin <- lift (timeSteps stepSizeSeconds (Add now (int64 (- past)))) ;;
   future <- get FutureTolerance ;;
   tMax <- lift (timeSteps stepSizeSeconds (Add now future)) ;;
   found <- search fuel hashProvider digits tMax code tMin ;;
   match found with
   | Some t => ret (true, t)
   | None =>
       cur <- lift (timeSteps stepSizeSeconds now) ;;
       ret (false, cur)
   end)%tc.

(** The configuration [ValidateTOTPCode] works with, once the unset
    fields are replaced. *)
Definition hashOf (tc : TOTPValidator) : Hash :=
  match HashProvider tc with None => sha1.New | Some h => h end.
Definition digitsOf (tc : TOTPValidator) : Z :=
  if Digits tc =? 0 then SixDigits else Digits tc.
Definition stepOf (tc : TOTPValidator) : Z :=
  if StepSizeSeconds tc =? 0 then DefaultStepSizeSeconds else StepSizeSeconds tc.

(** The bounds of the window and the current counter. *)
Definition tMinOf (tc : TOTPValidator) (now : Time) : outcome Z :=
  timeSteps (stepOf tc) (Add now (int64 (- PastTolerance tc))).
Definition tMaxOf (tc : TOTPValidator) (now : Time) : outcome Z :=
  timeSteps (stepOf tc) (Add now (FutureTolerance tc)).
Definition currentOf (tc : TOTPValidator) (now : Time) : outcome Z :=
  timeSteps (stepOf tc) now.

(** The code the validator generates at counter [t]. *)
Definition codeAt (tc : TOTPValidator) (t : Z) : outcome Z :=
  HOTPCode (hashOf tc) (Key tc) (digitsOf tc) (int64 t).

(** Field updates, as a caller writes them ([validator.LastT = lastT]). *)
Definition set_LastT (t : Z) (tc : TOTPValidator) : TOTPValidator :=
  mkValidator (Key tc) (StepSizeSeconds tc) (PastTolerance tc)
              (FutureTolerance tc) t (HashProvider tc) (Digits tc).
Definition set_HashProvider (h : Hash) (tc : TOTPValidator) : TOTPValidator :=
  mkValidator (Key tc) (StepSizeSeconds tc) (PastTolerance tc)
              (FutureTolerance tc) (LastT tc) (Some h) (Digits tc).
Definition set_Digits (d : Z) (tc : TOTPValidator) : TOTPValidator :=
  mkValidator (Key tc) (StepSizeSeconds tc) (PastTolerance tc)
              (FutureTolerance tc) (LastT tc) (HashProvider tc) d.
Definition set_StepSizeSeconds (s : Z) (tc : TOTPValidator) : TOTPValidator :=
  mkValidator (Key tc) s (PastTolerance tc)
              (FutureTolerance tc) (LastT tc) (HashProvider tc) (Digits tc).

(** A hash whose digests have at least twenty bytes. *)
Definition digest_ge20 (h : Hash) : Prop :=
  forall m : list byte, (20 <= List.length (Sum h m))%nat.

(** Test data of [otp_test.go]. *)
Definition rfc_key : list byte := list_byte_of_string "12345678901234567890".

(** A counter the loop lets through the replay floor and that generates
    the candidate code. *)
Definition matches (h : Hash) (d code : Z) (tc : TOTPValidator) (u : Z) : Prop :=
  LastT tc < u /\ HOTPCode h (Key tc) d (int64 u) = Ret code.

(** A counter that, when above the floor, generates some other code. *)
Definition misses (h : Hash) (d code : Z) (tc : TOTPValidator) (u : Z) : Prop :=
  LastT tc < u ->
  exists c : Z, HOTPCode h (Key tc) d (int64 u) = Ret c /\ c <> code.

(** The validator of the package example: the RFC key, tolerances of one
    step each way, everything else unset. *)
Definition example_validator : TOTPValidator :=
  mkValidator rfc_key 0 (DefaultStepSizeSeconds * Second)
              (DefaultStepSizeSeconds * Second) 0 None 0.

(** A validator with steps of one second, everything else unset, asked
    at the last second an [int64] can count. *)
Definition far_validator : TOTPValidator := mkValidator rfc_key 1 0 0 0 None 0.
Definition far_now : Time := Unix max_int64.

(** A [time.Time] as the [time] package builds them: the seconds fit
    [int64] and the nanoseconds stay within one second. *)
Definition wf_time (t : Time) : Prop :=
  in_int64 (sec t) /\ 0 <= nsec t < 1000000000.

(** ** RFC 4226, as the specification words it

    The reference the generator is compared with: arithmetic on the
    counter and on the digest bytes, no bit operations. *)
Module RFC4226.

(** The unsigned value of the 64-bit two's-complement pattern of [c]. *)
Definition twos_complement64 (c : Z) : Z :=
  if 0 <=? c then c else 2 ^ 64 + c.

(** The [n] base-256 digits of [u], most significant first. *)
Fixpoint big_endian (n : nat) (u : Z) : list Z :=
  match n with
  | O => []
  | S n' => big_endian n' (u / 256) ++ [u mod 256]
  end.

(** The number a byte string denotes when read most significant first. *)
Definition be_value (bs : list byte) : Z :=
  fold_left (fun acc b => 256 * acc + b2z b) bs 0.

Definition message (counter : Z) : list byte :=
  map z2b (big_endian 8 (twos_complement64 counter)).

Definition offset (digest : list byte) : nat :=
  Z.to_nat (b2z (last digest x00) mod 16).

Definition truncate (digest : list byte) : Z :=
  be_value (firstn 4 (skipn (offset digest) digest)) mod 2 ^ 31.

Definition code (h : Hash) (secret : list byte) (digit_count : Z)
                (counter : Z) : Z :=
  truncate (hmac.Sum h secret (message counter)) mod digit_count.

End RFC4226.

(** * Properties *)

(** ** Machine integers *)

Lemma int64_id (x : Z) : in_int64 x -> int64 x = x.
Proof.
  unfold in_int64, min_int64, max_int64, int64. intros H.
  rewrite Z.mod_small; lia.
Qed.

Lemma int64_in (x : Z) : in_int64 (int64 x).
Proof.
  unfold in_int64, min_int64, max_int64, int64.
  pose proof (Z.mod_pos_bound (x + 2 ^ 63) (2 ^ 64) ltac:(lia)). lia.
Qed.

Lemma int64_idem (x : Z) : int64 (int64 x) = int64 x.
Proof. apply int64_id, int64_in. Qed.

Lemma int_succ (t : Z) : in_int64 t -> t < max_int64 -> int (t + 1) = t + 1.
Proof.
  unfold int, in_int64. intros H Hlt. apply int64_id. unfold in_int64. lia.
Qed.

Lemma int_succ_max : int (max_int64 + 1) = min_int64.
Proof. reflexivity. Qed.

(** ** The loop and the validator, one step at a time *)

Lemma search_S (fuel : nat) (h : Hash) (d tMax code t : Z) (tc : TOTPValidator) :
  search (S fuel) h d tMax code t tc =
  if t <=? tMax then
    if t <=? LastT tc then search fuel h d tMax code (int (t + 1)) tc
    else match HOTPCode h (Key tc) d (int64 t) with
         | Ret c => if c =? code then (Ret (Some t), tc)
                    else search fuel h d tMax code (int (t + 1)) tc
         | Panic p => (Panic p, tc)
         | OutOfFuel => (OutOfFuel, tc)
         end
  else (Ret None, tc).
Proof.
  simpl. destruct (t <=? tMax); [|reflexivity].
  unfold bindM, get, lift, ret. simpl.
  destruct (t <=? LastT tc); [reflexivity|].
  destruct (HOTPCode h (Key tc) d (int64 t)) as [c| |]; try reflexivity.
  destruct (c =? code); reflexivity.
Qed.

Lemma search_frame (fuel : nat) (h : Hash) (d tMax code : Z) :
  forall (t : Z) (tc : TOTPValidator), snd (search fuel h d tMax code t tc) = tc.
Proof.
  induction fuel as [|fuel IH]; intros t tc; [reflexivity|].
  rewrite search_S.
  destruct (t <=? tMax); [|reflexivity].
  destruct (t <=? LastT tc); [apply IH|].
  destruct (HOTPCode h (Key tc) d (int64 t)) as [c| |]; try reflexivity.
  destruct (c =? code); [reflexivity|apply IH].
Qed.

Lemma search_eta (fuel : nat) (h : Hash) (d tMax code t : Z) (tc : TOTPValidator) :
  search fuel h d tMax code t tc = (fst (search fuel h d tMax code t tc), tc).
Proof.
  rewrite <- (search_frame fuel h d tMax code t tc) at 3.
  destruct (search fuel h d tMax code t tc); reflexivity.
Qed.

(** The result of [ValidateTOTPCode] in terms of the window bounds and of
    the loop. *)
Lemma Validate_unfold (fuel : nat) (now : Time) (code : Z) (tc : TOTPValidator) :
  fst (ValidateTOTPCode fuel now code tc) =
  (tMin <- tMinOf tc now ;;
   tMax <- tMaxOf tc now ;;
   found <- fst (search fuel (hashOf tc) (digitsOf tc) tMax code tMin tc) ;;
   match found with
   | Some t => Ret (true, t)
   | None => cur <- currentOf tc now ;; Ret (false, cur)
   end)%go.
Proof.
  unfold ValidateTOTPCode, tMinOf, tMaxOf, currentOf, hashOf, digitsOf, stepOf.
  unfold bindM, get, lift, ret. simpl.
  destruct (timeSteps _ (Add now (int64 (- PastTolerance tc)))) as [tMin| |];
    try reflexivity.
  destruct (timeSteps _ (Add now (FutureTolerance tc))) as [tMax| |];
    try reflexivity.
  simpl. rewrite search_eta.
  destruct (fst (search _ _ _ _ _ _ _)) as [[t|]| |]; try reflexivity.
  simpl. destruct (timeSteps _ now); reflexivity.
Qed.

(** The loop reads only [LastT] and [Key] through the receiver. *)
Lemma search_reads (fuel : nat) (h : Hash) (d tMax code : Z)
      (tc tc' : TOTPValidator) :
  LastT tc = LastT tc' -> Key tc = Key tc' ->
  forall t : Z,
    fst (search fuel h d tMax code t tc) = fst (search fuel h d tMax code t tc').
Proof.
  intros HL HK.
  induction fuel as [|fuel IH]; intros t; [reflexivity|].
  rewrite !search_S, <- HL, <- HK.
  destruct (t <=? tMax); [|reflexivity].
  destruct (t <=? LastT tc); [apply IH|].
  destruct (HOTPCode h (Key tc) d (int64 t)) as [c| |]; try reflexivity.
  destruct (c =? code); [reflexivity|apply IH].
Qed.

(** [ValidateTOTPCode] gives the same answer on two validators that agree
    on the configuration in force. *)
Lemma Validate_config (fuel : nat) (now : Time) (code : Z)
      (tc tc' : TOTPValidator) :
  hashOf tc = hashOf tc' -> digitsOf tc = digitsOf tc' ->
  stepOf tc = stepOf tc' ->
  Key tc = Key tc' -> LastT tc = LastT tc' ->
  PastTolerance tc = PastTolerance tc' ->
  FutureTolerance tc = FutureTolerance tc' ->
  fst (ValidateTOTPCode fuel now code tc) =
  fst (ValidateTOTPCode fuel now code tc').
Proof.
  intros Hh Hd Hs HK HL HP HF.
  rewrite !Validate_unfold.
  unfold tMinOf, tMaxOf, currentOf. rewrite Hh, Hd, Hs, HP, HF.
  destruct (timeSteps _ (Add now (int64 _))) as [tMin| |]; try reflexivity.
  destruct (timeSteps _ (Add now (FutureTolerance tc'))) as [tMax| |];
    try reflexivity.
  simpl. now rewrite (search_reads fuel _ _ tMax code tc tc' HL HK).
Qed.

(** Whatever the loop returns was tested after the replay floor and
    generated the candidate code. *)
Lemma search_sound (fuel : nat) (h : Hash) (d tMax code : Z) (tc : TOTPValidator) :
  forall t r : Z,
    fst (search fuel h d tMax code t tc) = Ret (Some r) ->
    LastT tc < r /\ r <= tMax /\ HOTPCode h (Key tc) d (int64 r) = Ret code.
Proof.
  induction fuel as [|fuel IH]; intros t r; [discriminate|].
  rewrite search_S.
  destruct (t <=? tMax) eqn:Hmax; [|discriminate].
  destruct (t <=? LastT tc) eqn:Hfloor; [apply IH|].
  destruct (HOTPCode h (Key tc) d (int64 t)) as [c| |] eqn:Hc; try discriminate.
  destruct (c =? code) eqn:Heq; [|apply IH].
  simpl. intros E. injection E as <-.
  apply Z.eqb_eq in Heq. rewrite Heq in Hc.
  apply Z.leb_le in Hmax. apply Z.leb_gt in Hfloor. auto.
Qed.

(** A match reported by [ValidateTOTPCode] comes from the loop. *)
Lemma Validate_true_inv (fuel : nat) (now : Time) (code : Z)
      (tc : TOTPValidator) (t : Z) :
  fst (ValidateTOTPCode fuel now code tc) = Ret (true, t) ->
  exists tMin tMax : Z,
    tMinOf tc now = Ret tMin /\ tMaxOf tc now = Ret tMax /\
    fst (search fuel (hashOf tc) (digitsOf tc) tMax code tMin tc) = Ret (Some t).
Proof.
  rewrite Validate_unfold.
  destruct (tMinOf tc now) as [tMin| |]; try discriminate.
  destruct (tMaxOf tc now) as [tMax| |]; try discriminate.
  simpl.
  destruct (fst (search _ _ _ _ _ _ _)) as [[r|]| |] eqn:Hs; try discriminate.
  - simpl. intros E. injection E as <-. now exists tMin, tMax.
  - simpl. destruct (currentOf tc now); discriminate.
Qed.

(** ** The validator leaves its state alone *)

(** C9: [ValidateTOTPCode] hands the validator back as it found it:
    every field (key, hash provider, digits, step size, both tolerances
    and [LastT]) is the same after the call, whether a match was found,
    none was found, the call panicked or it was cut short. *)
Theorem Validate_frame (fuel : nat) (now : Time) (code : Z) (tc : TOTPValidator) :
  snd (ValidateTOTPCode fuel now code tc) = tc.
Proof.
  unfold ValidateTOTPCode, bindM, get, lift, ret. simpl.
  destruct (timeSteps _ (Add now (int64 _))) as [tMin| |]; try reflexivity.
  destruct (timeSteps _ (Add now (FutureTolerance tc))) as [tMax| |];
    try reflexivity.
  rewrite search_eta.
  destruct (fst (search _ _ _ _ _ _ _)) as [[t|]| |]; try reflexivity.
  simpl. destruct (timeSteps _ now); reflexivity.
Qed.

(** ** The replay floor *)

(** C2: whenever [ValidateTOTPCode] returns [true] with counter [t],
    [t] is strictly above the validator's [LastT]; a counter at or below
    the floor is never reported, whatever code it generates. *)
Theorem Validate_above_floor (fuel : nat) (now : Time) (code : Z)
        (tc : TOTPValidator) (t : Z) :
  fst (ValidateTOTPCode fuel now code tc) = Ret (true, t) ->
  LastT tc < t.
Proof.
  intros H. apply Validate_true_inv in H as (tMin & tMax & _ & _ & H).
  now apply search_sound in H.
Qed.

(** Witness for C2: the RFC 6238 vector at Unix time 59. *)
Lemma Validate_above_floor_witness :
  LastT (mkValidator rfc_key 0 0 0 0 (Some sha1.New) EightDigits) < 1.
Proof.
  apply (Validate_above_floor 1 (Unix 59) 94287082
           (mkValidator rfc_key 0 0 0 0 (Some sha1.New) EightDigits) 1).
  vm_compute. reflexivity.
Defined.

(** ** Defaults *)

(** C7: an unset hash provider, digit count or step size is replaced by
    SHA-1, [SixDigits] and 30 seconds, each on its own: the answer of
    [ValidateTOTPCode] is the one of the validator with that field set to
    its default. *)
Theorem Validate_defaults (fuel : nat) (now : Time) (code : Z)
        (tc : TOTPValidator) :
  (HashProvider tc = None ->
   fst (ValidateTOTPCode fuel now code tc) =
   fst (ValidateTOTPCode fuel now code (set_HashProvider sha1.New tc))) /\
  (Digits tc = 0 ->
   fst (ValidateTOTPCode fuel now code tc) =
   fst (ValidateTOTPCode fuel now code (set_Digits SixDigits tc))) /\
  (StepSizeSeconds tc = 0 ->
   fst (ValidateTOTPCode fuel now code tc) =
   fst (ValidateTOTPCode fuel now code
          (set_StepSizeSeconds DefaultStepSizeSeconds tc))).
Proof.
  repeat split; intros H; apply Validate_config; try reflexivity.
  - unfold hashOf. now rewrite H.
  - unfold digitsOf. now rewrite H.
  - unfold stepOf. now rewrite H.
Qed.

(** Witness for C7: the validator of the package example, with all three
    fields unset. *)
Lemma Validate_defaults_witness :
  let tc := mkValidator rfc_key 0 0 0 0 None 0 in
  fst (ValidateTOTPCode 1 (Unix 1111111109) 81804 tc) =
  fst (ValidateTOTPCode 1 (Unix 1111111109) 81804
         (set_HashProvider sha1.New tc)) /\
  fst (ValidateTOTPCode 1 (Unix 1111111109) 81804 tc) =
  fst (ValidateTOTPCode 1 (Unix 1111111109) 81804 (set_Digits SixDigits tc)) /\
  fst (ValidateTOTPCode 1 (Unix 1111111109) 81804 tc) =
  fst (ValidateTOTPCode 1 (Unix 1111111109) 81804
         (set_StepSizeSeconds DefaultStepSizeSeconds tc)).
Proof.
  intros tc.
  destruct (Validate_defaults 1 (Unix 1111111109) 81804 tc) as (Hh & Hd & Hs).
  split; [apply Hh; reflexivity|].
  split; [apply Hd; reflexivity|apply Hs; reflexivity].
Defined.

(** ** Bytes and bit operations *)

Lemma b2z_range (b : byte) : 0 <= b2z b < 256.
Proof.
  unfold b2z. pose proof (Byte.to_N_bounded b). lia.
Qed.

Lemma z2b_mod (x : Z) : z2b (x mod 256) = z2b x.
Proof.
  unfold z2b, uint8. change (2 ^ 8) with 256.
  now rewrite Z.mod_mod by lia.
Qed.

Lemma b2z_z2b (x : Z) : b2z (z2b x) = x mod 256.
Proof.
  unfold z2b, b2z, uint8. change (2 ^ 8) with 256.
  pose proof (Z.mod_pos_bound x 256 ltac:(lia)) as Hb.
  destruct (Byte.of_N (Z.to_N (x mod 256))) as [b|] eqn:E.
  - apply Byte.to_of_N in E. rewrite E. lia.
  - apply Byte.of_N_None_iff in E. lia.
Qed.

Lemma land_shiftl_low (lo hi n : Z) :
  0 <= n -> 0 <= lo < 2 ^ n -> Z.land lo (Z.shiftl hi n) = 0.
Proof.
  intros Hn Hlo. apply Z.bits_inj'. intros i Hi.
  rewrite Z.land_spec, Z.bits_0.
  destruct (Z.lt_ge_cases i n) as [Hlt|Hge].
  - rewrite (Z.shiftl_spec_low hi n i Hlt). apply andb_false_r.
  - rewrite <- (Z.mod_small lo (2 ^ n)) by lia.
    rewrite Z.mod_pow2_bits_high by lia. reflexivity.
Qed.

Lemma lor_shiftl (lo hi n : Z) :
  0 <= n -> 0 <= lo < 2 ^ n -> Z.lor lo (Z.shiftl hi n) = lo + hi * 2 ^ n.
Proof.
  intros Hn Hlo.
  pose proof (Z.add_lor_land lo (Z.shiftl hi n)) as H.
  rewrite (land_shiftl_low lo hi n Hn Hlo), Z.shiftl_mul_pow2 in H by lia.
  rewrite Z.shiftl_mul_pow2 by lia. lia.
Qed.

Lemma land_0x0f (x : Z) : Z.land x 0x0f = x mod 16.
Proof. exact (Z.land_ones x 4 ltac:(lia)). Qed.

Lemma land_0x7fffffff (x : Z) : Z.land x 0x7fffffff = x mod 2 ^ 31.
Proof. exact (Z.land_ones x 31 ltac:(lia)). Qed.

(** ** Slices *)

Lemma nth_last (A : Type) (l : list A) (d : A) :
  nth (List.length l - 1) l d = last l d.
Proof.
  induction l as [|a [|b l] IH]; try reflexivity.
  change (last (a :: b :: l) d) with (last (b :: l) d).
  rewrite <- IH. simpl. now rewrite Nat.sub_0_r.
Qed.

Lemma index_last (s : list byte) :
  (0 < List.length s)%nat -> index s (len s - 1) = Ret (last s x00).
Proof.
  intros H. unfold index, len.
  replace ((0 <=? Z.of_nat (List.length s) - 1) &&
           (Z.of_nat (List.length s) - 1 <? Z.of_nat (List.length s)))
    with true by (symmetry; apply andb_true_iff; split;
                  [apply Z.leb_le|apply Z.ltb_lt]; lia).
  replace (Z.to_nat (Z.of_nat (List.length s) - 1))
    with (List.length s - 1)%nat by lia.
  now rewrite nth_last.
Qed.

Lemma slice_window (s : list byte) (o : Z) :
  0 <= o -> o + 4 <= len s ->
  slice s o (o + 4) = Ret (firstn 4 (skipn (Z.to_nat o) s)).
Proof.
  intros Ho Hlen. unfold slice.
  replace ((0 <=? o) && (o <=? o + 4) && (o + 4 <=? len s)) with true
    by (symmetry; rewrite !andb_true_iff; repeat split; apply Z.leb_le; lia).
  now replace (Z.to_nat (o + 4 - o)) with 4%nat by lia.
Qed.

Lemma window_four (s : list byte) (o : nat) :
  (o + 4 <= List.length s)%nat ->
  exists b0 b1 b2 b3 : byte, firstn 4 (skipn o s) = [b0; b1; b2; b3].
Proof.
  intros H.
  assert (Hl : (4 <= List.length (skipn o s))%nat)
    by (rewrite length_skipn; lia).
  destruct (skipn o s) as [|b0 [|b1 [|b2 [|b3 r]]]]; simpl in Hl; try lia.
  now exists b0, b1, b2, b3.
Qed.

Lemma Uint32_value (b0 b1 b2 b3 : byte) :
  BigEndian.Uint32 [b0; b1; b2; b3] = Ret (RFC4226.be_value [b0; b1; b2; b3]).
Proof.
  unfold BigEndian.Uint32, RFC4226.be_value. cbn [fold_left]. f_equal.
  pose proof (b2z_range b0). pose proof (b2z_range b1).
  pose proof (b2z_range b2). pose proof (b2z_range b3).
  rewrite (lor_shiftl (b2z b3) (b2z b2) 8) by lia.
  rewrite (lor_shiftl _ (b2z b1) 16) by lia.
  rewrite (lor_shiftl _ (b2z b0) 24) by lia.
  lia.
Qed.

Lemma be_value_nonneg (bs : list byte) : 0 <= RFC4226.be_value bs.
Proof.
  unfold RFC4226.be_value.
  assert (H : forall acc, 0 <= acc ->
            0 <= fold_left (fun a b => 256 * a + b2z b) bs acc).
  { induction bs as [|b bs IH]; intros acc Hacc; cbn [fold_left];
      [assumption|].
    apply IH. pose proof (b2z_range b). lia. }
  apply H. lia.
Qed.

(** ** The counter on the wire *)

Lemma uint64_twos (v : Z) :
  in_int64 v -> uint64 v = RFC4226.twos_complement64 v.
Proof.
  unfold in_int64, min_int64, max_int64, uint64, RFC4226.twos_complement64.
  intros H. destruct (0 <=? v) eqn:E.
  - apply Z.leb_le in E. apply Z.mod_small. lia.
  - apply Z.leb_gt in E.
    rewrite <- (Z.mod_add v 1 (2 ^ 64)) by lia.
    rewrite Z.mod_small; lia.
Qed.

Lemma PutUint64_big_endian (u : Z) :
  BigEndian.PutUint64 u = map z2b (RFC4226.big_endian 8 u).
Proof.
  unfold BigEndian.PutUint64. rewrite !Z.shiftr_div_pow2 by lia.
  simpl RFC4226.big_endian. simpl map. rewrite !z2b_mod.
  rewrite !Z.div_div by lia.
  reflexivity.
Qed.

Lemma Write_int64_message (v : Z) :
  in_int64 v -> BigEndian.Write_int64 v = RFC4226.message v.
Proof.
  intros H. unfold BigEndian.Write_int64, RFC4226.message.
  now rewrite PutUint64_big_endian, uint64_twos.
Qed.

(** ** Digests *)

Lemma sha1_Sum20_length (m : list byte) : List.length (sha1.Sum20 m) = 20%nat.
Proof.
  unfold sha1.Sum20.
  generalize (sha1.blocks (Nat.div (List.length (sha1.pad m)) 64)
                          sha1.init (sha1.pad m)).
  intros s. reflexivity.
Qed.

Lemma sha1_digest_ge20 : digest_ge20 sha1.New.
Proof.
  intros m. change (Sum sha1.New m) with (sha1.Sum20 m).
  rewrite sha1_Sum20_length. apply Nat.le_refl.
Qed.

Lemma hmac_Sum_length (h : Hash) (key msg : list byte) :
  digest_ge20 h -> (20 <= List.length (hmac.Sum h key msg))%nat.
Proof. intros H. unfold hmac.Sum. apply H. Qed.

(** ** HOTPCode *)

(** Up to the final remainder, [HOTPCode] computes the dynamic
    truncation of the HMAC digest. *)
Lemma HOTPCode_truncate (h : Hash) (key : list byte) (digits value : Z) :
  digest_ge20 h ->
  HOTPCode h key digits value =
  (code <- rem_uint32
             (RFC4226.truncate (hmac.Sum h key (BigEndian.Write_int64 value)))
             (uint32 digits) ;;
   Ret (int code))%go.
Proof.
  intros Hh. unfold HOTPCode, RFC4226.truncate, RFC4226.offset.
  set (sum := hmac.Sum h key (BigEndian.Write_int64 value)).
  pose proof (hmac_Sum_length h key (BigEndian.Write_int64 value) Hh) as Hlen.
  fold sum in Hlen.
  rewrite index_last by lia. cbn [bind].
  rewrite land_0x0f.
  pose proof (Z.mod_pos_bound (b2z (last sum x00)) 16 ltac:(lia)) as Ho.
  set (o := b2z (last sum x00) mod 16) in *.
  replace (uint8 (o + 4)) with (o + 4)
    by (unfold uint8; rewrite Z.mod_small; lia).
  rewrite slice_window by (unfold len; lia). cbn [bind].
  destruct (window_four sum (Z.to_nat o) ltac:(lia)) as (b0 & b1 & b2 & b3 & E).
  rewrite E, Uint32_value. cbn [bind].
  now rewrite land_0x7fffffff.
Qed.

Lemma truncate_range (digest : list byte) :
  0 <= RFC4226.truncate digest < 2 ^ 31.
Proof. unfold RFC4226.truncate. apply Z.mod_pos_bound. lia. Qed.

(** [HOTPCode] against the reference. *)
Lemma HOTPCode_code (h : Hash) (key : list byte) (digits value : Z) :
  digest_ge20 h -> 0 < digits < 2 ^ 32 -> in_int64 value ->
  HOTPCode h key digits value = Ret (RFC4226.code h key digits value).
Proof.
  intros Hh Hd Hv. rewrite HOTPCode_truncate by assumption.
  rewrite Write_int64_message by assumption.
  unfold RFC4226.code.
  pose proof (truncate_range (hmac.Sum h key (RFC4226.message value))) as Hs.
  set (snip := RFC4226.truncate _) in *.
  unfold rem_uint32, uint32. rewrite (Z.mod_small digits) by lia.
  destruct (digits =? 0) eqn:E; [apply Z.eqb_eq in E; lia|].
  cbn [bind]. rewrite Z.rem_mod_nonneg by lia.
  pose proof (Z.mod_pos_bound snip digits ltac:(lia)).
  unfold int. rewrite int64_id; [reflexivity|].
  unfold in_int64, min_int64, max_int64. lia.
Qed.

Lemma HOTPCode_zero_digits (h : Hash) (key : list byte) (value : Z) :
  digest_ge20 h -> HOTPCode h key 0 value = Panic DivideByZero.
Proof.
  intros Hh. rewrite HOTPCode_truncate by assumption. reflexivity.
Qed.

(** With a digit count other than zero, [HOTPCode] does not divide by
    zero, whatever the hash. *)
Lemma HOTPCode_no_div0 (h : Hash) (key : list byte) (digits value : Z) :
  uint32 digits <> 0 -> HOTPCode h key digits value <> Panic DivideByZero.
Proof.
  intros Hd. unfold HOTPCode.
  destruct (index _ _) as [l| |] eqn:E1; cbn [bind].
  - destruct (slice _ _ _) as [w| |] eqn:E2; cbn [bind].
    + destruct (BigEndian.Uint32 w) as [x| |] eqn:E3; cbn [bind].
      * unfold rem_uint32. apply Z.eqb_neq in Hd. rewrite Hd. discriminate.
      * unfold BigEndian.Uint32 in E3.
        destruct w as [|? [|? [|? [|? ?]]]]; inversion E3; discriminate.
      * discriminate.
    + unfold slice in E2. destruct (_ && _); inversion E2; discriminate.
    + discriminate.
  - unfold index in E1. destruct (_ && _); inversion E1; discriminate.
  - discriminate.
Qed.

(** C1: for a hash with digests of at least 20 bytes, a positive digit
    count (a [uint32]) and any 64-bit counter, negative ones included,
    [HOTPCode] returns the RFC 4226 code: the counter as 8 big-endian
    bytes of its two's complement, the HMAC digest of these under the
    key, the 4 bytes at the offset given by the low nibble of the last
    digest byte read as a big-endian number, its low 31 bits, modulo the
    digit count. *)
Theorem HOTPCode_rfc4226 (h : Hash) (key : list byte) (digits value : Z) :
  digest_ge20 h -> 0 < digits < 2 ^ 32 -> in_int64 value ->
  HOTPCode h key digits value = Ret (RFC4226.code h key digits value).
Proof. exact (HOTPCode_code h key digits value). Qed.

(** Witness for C1: SHA-1, the RFC key, six digits, counter -1. *)
Lemma HOTPCode_rfc4226_witness :
  HOTPCode sha1.New rfc_key SixDigits (-1) =
  Ret (RFC4226.code sha1.New rfc_key SixDigits (-1)).
Proof.
  apply (HOTPCode_rfc4226 sha1.New rfc_key SixDigits (-1)).
  - exact sha1_digest_ge20.
  - unfold SixDigits. lia.
  - unfold in_int64, min_int64, max_int64. lia.
Defined.

(** C5: for a positive digit count [d] and a hash with digests of at
    least 20 bytes, [HOTPCode] returns a code between 0 and [d - 1]. *)
Theorem HOTPCode_range (h : Hash) (key : list byte) (digits value : Z) :
  digest_ge20 h -> 0 < digits < 2 ^ 32 -> in_int64 value ->
  exists code : Z,
    HOTPCode h key digits value = Ret code /\ 0 <= code <= digits - 1.
Proof.
  intros Hh Hd Hv. exists (RFC4226.code h key digits value).
  split; [now apply HOTPCode_code|].
  unfold RFC4226.code.
  pose proof (Z.mod_pos_bound
                (RFC4226.truncate (hmac.Sum h key (RFC4226.message value)))
                digits ltac:(lia)).
  lia.
Qed.

(** Witness for C5: the first vector of RFC 4226, appendix D. *)
Lemma HOTPCode_range_witness :
  exists code : Z,
    HOTPCode sha1.New rfc_key SixDigits 0 = Ret code /\
    0 <= code <= SixDigits - 1.
Proof.
  apply (HOTPCode_range sha1.New rfc_key SixDigits 0).
  - exact sha1_digest_ge20.
  - unfold SixDigits. lia.
  - unfold in_int64, min_int64, max_int64. lia.
Defined.

(** ** timeSteps *)

Lemma Unix_of_in (t : Time) : in_int64 (Unix_of t).
Proof. apply int64_in. Qed.

Lemma Unix_of_Unix (s : Z) : in_int64 s -> Unix_of (Unix s) = s.
Proof.
  intros H. unfold Unix_of, Unix, internalToUnix. cbn [sec].
  unfold int64 at 2.
  unfold in_int64, min_int64, max_int64 in H.
  unfold int64.
  replace ((s + unixToInternal + 2 ^ 63) mod 2 ^ 64 - 2 ^ 63 + - unixToInternal
           + 2 ^ 63)
    with ((s + unixToInternal + 2 ^ 63) mod 2 ^ 64 + - unixToInternal) by lia.
  rewrite Zplus_mod_idemp_l.
  replace (s + unixToInternal + 2 ^ 63 + - unixToInternal) with (s + 2 ^ 63)
    by lia.
  rewrite Z.mod_small; lia.
Qed.

Lemma quot_bounds (a s : Z) :
  0 < s -> Z.min a 0 <= Z.quot a s <= Z.max a 0.
Proof.
  intros Hs. destruct (Z.le_gt_cases 0 a) as [Ha|Ha].
  - rewrite Z.quot_div_nonneg by lia.
    pose proof (Z.div_pos a s Ha Hs).
    assert (a / s <= a) by (apply Z.div_le_upper_bound; nia).
    lia.
  - assert (E : Z.quot a s = - (- a / s)).
    { rewrite <- (Z.quot_div_nonneg (- a) s) by lia.
      rewrite Z.quot_opp_l by lia. lia. }
    rewrite E.
    pose proof (Z.div_pos (- a) s ltac:(lia) Hs).
    assert (- a / s <= - a) by (apply Z.div_le_upper_bound; nia).
    lia.
Qed.

Lemma timeSteps_quot (s : Z) (t : Time) :
  0 < s <= max_int64 -> timeSteps s t = Ret (Z.quot (Unix_of t) s).
Proof.
  intros Hs. unfold timeSteps, div_int64.
  assert (Hin : in_int64 s)
    by (unfold in_int64, min_int64, max_int64 in *; lia).
  rewrite (int64_id s Hin).
  destruct (s =? 0) eqn:E; [apply Z.eqb_eq in E; lia|].
  cbn [bind]. unfold int. rewrite int64_idem.
  rewrite int64_id; [reflexivity|].
  pose proof (Unix_of_in t) as Hu. pose proof (quot_bounds (Unix_of t) s) as Hq.
  unfold in_int64, min_int64, max_int64 in *. lia.
Qed.

Lemma timeSteps_zero (t : Time) : timeSteps 0 t = Panic DivideByZero.
Proof. reflexivity. Qed.

(** With a step size other than zero [timeSteps] returns a counter. *)
Lemma timeSteps_returns (s : Z) (t : Time) :
  int64 s <> 0 -> exists q : Z, timeSteps s t = Ret q /\ in_int64 q.
Proof.
  intros Hs. unfold timeSteps, div_int64.
  apply Z.eqb_neq in Hs. rewrite Hs. cbn [bind].
  eexists. split; [reflexivity|apply int64_in].
Qed.

Lemma timeSteps_in (s q : Z) (t : Time) : timeSteps s t = Ret q -> in_int64 q.
Proof.
  unfold timeSteps, div_int64. destruct (int64 s =? 0); [discriminate|].
  cbn [bind]. intros E. injection E as <-. apply int64_in.
Qed.

Lemma timeSteps_step (s q : Z) (t : Time) : timeSteps s t = Ret q -> int64 s <> 0.
Proof.
  unfold timeSteps, div_int64. destruct (int64 s =? 0) eqn:E; [discriminate|].
  intros _. now apply Z.eqb_neq.
Qed.

(** C8: for a positive step size and any instant, before the epoch or
    after, [timeSteps] returns (it does not panic) the Unix seconds of the
    instant divided by the step size, the quotient truncated toward
    zero. *)
Theorem timeSteps_truncates (stepSize : Z) (t : Time) :
  0 < stepSize <= max_int64 ->
  timeSteps stepSize t = Ret (Z.quot (Unix_of t) stepSize).
Proof. exact (timeSteps_quot stepSize t). Qed.

(** Witness for C8: 59 seconds before the epoch, steps of 30 seconds. *)
Lemma timeSteps_truncates_witness :
  timeSteps 30 (Unix (-59)) = Ret (Z.quot (Unix_of (Unix (-59))) 30).
Proof.
  apply (timeSteps_truncates 30 (Unix (-59))).
  unfold max_int64. lia.
Defined.

(** Before the epoch the counter rounds toward zero, not down. *)
Example timeSteps_before_epoch : timeSteps 30 (Unix (-59)) = Ret (-1).
Proof. reflexivity. Qed.

(** ** The loop over the window *)

Section Search.

Variables (h : Hash) (d tMax code : Z) (tc : TOTPValidator).

Abbreviation matching := (matches h d code tc).
Abbreviation missing := (misses h d code tc).

(** The loop stops at the first counter that matches. *)
Lemma search_finds (r : Z) :
  in_int64 r -> r <= tMax -> matching r ->
  forall (fuel : nat) (t : Z),
    in_int64 t -> t <= r -> (forall u, t <= u < r -> missing u) ->
    (Z.to_nat (r - t) < fuel)%nat ->
    fst (search fuel h d tMax code t tc) = Ret (Some r).
Proof.
  intros Hr Hmax [Hfloor Hcode].
  induction fuel as [|fuel IH]; intros t Ht Htr Hmiss Hfuel; [lia|].
  rewrite search_S.
  replace (t <=? tMax) with true by (symmetry; apply Z.leb_le; lia).
  assert (Hnext : t < r ->
            fst (search fuel h d tMax code (int (t + 1)) tc) = Ret (Some r)).
  { intros Hlt. unfold int. rewrite int64_id
      by (unfold in_int64, min_int64, max_int64 in *; lia).
    apply IH; [unfold in_int64, min_int64, max_int64 in *; lia|lia| |lia].
    intros u Hu. apply Hmiss. lia. }
  destruct (t <=? LastT tc) eqn:Ef.
  - apply Z.leb_le in Ef. apply Hnext. lia.
  - apply Z.leb_gt in Ef.
    destruct (Z.eq_dec t r) as [->|Hne].
    + rewrite Hcode, Z.eqb_refl. reflexivity.
    + destruct (Hmiss t ltac:(lia) Ef) as (c & Hc & Hcne).
      rewrite Hc. apply Z.eqb_neq in Hcne. rewrite Hcne.
      apply Hnext. lia.
Qed.

(** Below the largest [int] the loop runs off the end of a window
    without a match. *)
Lemma search_none :
  tMax < max_int64 ->
  forall (fuel : nat) (t : Z),
    in_int64 t -> (forall u, t <= u <= tMax -> missing u) ->
    (Z.to_nat (tMax - t + 1) < fuel)%nat ->
    fst (search fuel h d tMax code t tc) = Ret None.
Proof.
  intros Hmax.
  induction fuel as [|fuel IH]; intros t Ht Hmiss Hfuel; [lia|].
  rewrite search_S.
  destruct (t <=? tMax) eqn:Em; [|reflexivity].
  apply Z.leb_le in Em.
  assert (Hnext : fst (search fuel h d tMax code (int (t + 1)) tc) = Ret None).
  { rewrite int_succ by (assumption || lia).
    apply IH; [unfold in_int64, min_int64, max_int64 in *; lia| |lia].
    intros u Hu. apply Hmiss. lia. }
  destruct (t <=? LastT tc) eqn:Ef; [exact Hnext|].
  apply Z.leb_gt in Ef.
  destruct (Hmiss t ltac:(lia) Ef) as (c & Hc & Hcne).
  rewrite Hc. apply Z.eqb_neq in Hcne. now rewrite Hcne.
Qed.

(** Below the largest [int], what the loop returns is the first match
    of the window. *)
Lemma search_first :
  tMax < max_int64 ->
  forall (fuel : nat) (t r : Z),
    in_int64 t ->
    fst (search fuel h d tMax code t tc) = Ret (Some r) ->
    t <= r <= tMax /\ matching r /\ (forall u, t <= u < r -> ~ matching u).
Proof.
  intros Hmax.
  induction fuel as [|fuel IH]; intros t r Ht; [discriminate|].
  rewrite search_S.
  destruct (t <=? tMax) eqn:Em; [|discriminate].
  apply Z.leb_le in Em.
  assert (Hnext : (~ matching t) ->
            fst (search fuel h d tMax code (int (t + 1)) tc) = Ret (Some r) ->
            t <= r <= tMax /\ matching r /\ (forall u, t <= u < r -> ~ matching u)).
  { intros Hn. rewrite int_succ by (assumption || lia). intros E.
    apply IH in E; [|unfold in_int64, min_int64, max_int64 in *; lia].
    destruct E as (Hr & Hm & Hfirst).
    split; [lia|]. split; [assumption|].
    intros u Hu. destruct (Z.eq_dec u t) as [->|Hne]; [assumption|].
    apply Hfirst. lia. }
  destruct (t <=? LastT tc) eqn:Ef.
  - apply Z.leb_le in Ef. apply Hnext. intros [Hf _]. lia.
  - apply Z.leb_gt in Ef.
    destruct (HOTPCode h (Key tc) d (int64 t)) as [c| |] eqn:Hc;
      try discriminate.
    destruct (c =? code) eqn:Ec.
    + apply Z.eqb_eq in Ec. subst c. cbn [fst]. intros E. injection E as <-.
      split; [lia|]. split; [now split|]. intros u Hu. lia.
    + apply Z.eqb_neq in Ec. apply Hnext. intros [_ Hm].
      rewrite Hc in Hm. injection Hm as Hm. contradiction.
Qed.

(** Counters at or below the floor are passed over. *)
Lemma search_skip (n : nat) :
  forall (fuel : nat) (t : Z),
    in_int64 t ->
    t + Z.of_nat n <= max_int64 ->
    t + Z.of_nat n - 1 <= tMax ->
    t + Z.of_nat n - 1 <= LastT tc ->
    fst (search (n + fuel) h d tMax code t tc) =
    fst (search fuel h d tMax code (t + Z.of_nat n) tc).
Proof.
  induction n as [|n IH]; intros fuel t Ht Hm Hmax Hfloor.
  - now rewrite Z.add_0_r.
  - cbn [Nat.add]. rewrite search_S.
    replace (t <=? tMax) with true by (symmetry; apply Z.leb_le; lia).
    replace (t <=? LastT tc) with true by (symmetry; apply Z.leb_le; lia).
    rewrite int_succ by (assumption || lia).
    rewrite IH; [|unfold in_int64, min_int64, max_int64 in *; lia|lia..].
    f_equal. f_equal. lia.
Qed.

(** When the window ends at the largest [int], the loop condition never
    fails: without a match anywhere above the floor the loop does not
    stop. *)
Lemma search_diverges :
  tMax = max_int64 -> (forall u, in_int64 u -> missing u) ->
  forall (fuel : nat) (t : Z),
    in_int64 t -> fst (search fuel h d tMax code t tc) = OutOfFuel.
Proof.
  intros Hmax Hmiss.
  induction fuel as [|fuel IH]; intros t Ht; [reflexivity|].
  rewrite search_S.
  replace (t <=? tMax) with true
    by (symmetry; apply Z.leb_le; unfold in_int64 in Ht; lia).
  pose proof (IH (int (t + 1)) (int64_in (t + 1))) as Hnext.
  destruct (t <=? LastT tc) eqn:Ef; [exact Hnext|].
  apply Z.leb_gt in Ef.
  destruct (Hmiss t Ht Ef) as (c & Hc & Hcne).
  rewrite Hc. apply Z.eqb_neq in Hcne. now rewrite Hcne.
Qed.

End Search.

(** ** ValidateTOTPCode over its window *)

Section Window.

Variables (now : Time) (code : Z) (tc : TOTPValidator).

Abbreviation matching := (matches (hashOf tc) (digitsOf tc) code tc).
Abbreviation missing := (misses (hashOf tc) (digitsOf tc) code tc).

(** The first counter of the window that is above the floor and
    generates the candidate code is returned. *)
Lemma Validate_finds (tMin tMax r : Z) :
  tMinOf tc now = Ret tMin -> tMaxOf tc now = Ret tMax ->
  tMin <= r <= tMax -> matching r ->
  (forall u, tMin <= u < r -> missing u) ->
  forall fuel : nat,
    (Z.to_nat (r - tMin) < fuel)%nat ->
    fst (ValidateTOTPCode fuel now code tc) = Ret (true, r).
Proof.
  intros Hmin Hmax Hr Hm Hmiss fuel Hfuel.
  rewrite Validate_unfold, Hmin, Hmax. cbn [bind].
  pose proof (timeSteps_in _ _ _ Hmin) as Himin.
  pose proof (timeSteps_in _ _ _ Hmax) as Himax.
  rewrite (search_finds (hashOf tc) (digitsOf tc) tMax code tc r);
    try assumption; try lia; try reflexivity.
  unfold in_int64 in *. lia.
Qed.

(** A window that ends below the largest [int] and holds no such
    counter gives [false] and the current counter. *)
Lemma Validate_none (tMin tMax : Z) :
  tMinOf tc now = Ret tMin -> tMaxOf tc now = Ret tMax ->
  tMax < max_int64 ->
  (forall u, tMin <= u <= tMax -> missing u) ->
  exists cur : Z,
    currentOf tc now = Ret cur /\
    forall fuel : nat,
      (Z.to_nat (tMax - tMin + 1) < fuel)%nat ->
      fst (ValidateTOTPCode fuel now code tc) = Ret (false, cur).
Proof.
  intros Hmin Hmax Hlt Hmiss.
  destruct (timeSteps_returns (stepOf tc) now (timeSteps_step _ _ _ Hmin))
    as (cur & Hcur & _).
  exists cur. split; [exact Hcur|]. intros fuel Hfuel.
  rewrite Validate_unfold, Hmin, Hmax. cbn [bind].
  rewrite (search_none (hashOf tc) (digitsOf tc) tMax code tc Hlt);
    try assumption.
  - cbn [bind]. unfold currentOf. now rewrite Hcur.
  - exact (timeSteps_in _ _ _ Hmin).
Qed.

(** In a window that ends below the largest [int], a reported match is
    the first counter of the window above the floor that generates the
    candidate code. *)
Lemma Validate_first (fuel : nat) (tMax r : Z) :
  tMaxOf tc now = Ret tMax -> tMax < max_int64 ->
  fst (ValidateTOTPCode fuel now code tc) = Ret (true, r) ->
  exists tMin : Z,
    tMinOf tc now = Ret tMin /\ tMin <= r <= tMax /\ matching r /\
    (forall u, tMin <= u < r -> ~ matching u).
Proof.
  intros Hmax Hlt H.
  apply Validate_true_inv in H as (tMin & tMax' & Hmin & Hmax' & H).
  rewrite Hmax in Hmax'. injection Hmax' as <-.
  exists tMin. split; [exact Hmin|].
  exact (search_first _ _ _ _ _ Hlt fuel tMin r (timeSteps_in _ _ _ Hmin) H).
Qed.

(** With digests of at least 20 bytes and a digit count that fits
    [uint32], every counter generates a code: one that does not match
    misses. *)
Lemma not_matching_missing (u : Z) :
  digest_ge20 (hashOf tc) -> in_uint32 (Digits tc) ->
  ~ matching u -> missing u.
Proof.
  intros Hh Hd Hn Hfloor.
  assert (Hdig : 0 < digitsOf tc < 2 ^ 32).
  { unfold digitsOf, in_uint32, SixDigits in *.
    destruct (Digits tc =? 0) eqn:E; [lia|]. apply Z.eqb_neq in E. lia. }
  exists (RFC4226.code (hashOf tc) (Key tc) (digitsOf tc) (int64 u)).
  pose proof (HOTPCode_code (hashOf tc) (Key tc) (digitsOf tc) (int64 u)
                Hh Hdig (int64_in u)) as Hc.
  split; [exact Hc|]. intros E. apply Hn. split; [exact Hfloor|].
  now rewrite Hc, E.
Qed.

(** The window search, for a window that ends below the largest [int]:
    [true] is returned with [r] exactly when [r] is the first counter of
    [tMin .. tMax] above the floor that generates the candidate code. *)
Lemma Validate_window_spec (tMin tMax r : Z) :
  digest_ge20 (hashOf tc) -> in_uint32 (Digits tc) ->
  tMinOf tc now = Ret tMin -> tMaxOf tc now = Ret tMax ->
  tMax < max_int64 ->
  (exists fuel : nat, fst (ValidateTOTPCode fuel now code tc) = Ret (true, r)) <->
  (tMin <= r <= tMax /\ matching r /\ forall u, tMin <= u < r -> ~ matching u).
Proof.
  intros Hh Hd Hmin Hmax Hlt. split.
  - intros [fuel H].
    destruct (Validate_first fuel tMax r Hmax Hlt H) as (tMin' & Hmin' & Hspec).
    rewrite Hmin in Hmin'. injection Hmin' as <-. exact Hspec.
  - intros (Hr & Hm & Hfirst).
    exists (S (Z.to_nat (r - tMin))).
    apply (Validate_finds tMin tMax r Hmin Hmax Hr Hm).
    + intros u Hu. apply not_matching_missing; auto.
    + lia.
Qed.

End Window.

(** ** No reuse *)

(** Counterexample to C4 as stated: on April 1, 2005 the counters
    37079356 and 37079357 generate the same six-digit code 186519 under
    the RFC key.  The first call accepts it at 37079356; with [LastT]
    advanced to that counter the second call accepts it again, at
    37079357. *)
Lemma Validate_reuse_counterexample :
  fst (ValidateTOTPCode 3 (Unix 1112380680) 186519 example_validator) =
    Ret (true, 37079356) /\
  fst (ValidateTOTPCode 3 (Unix 1112380680) 186519
         (set_LastT 37079356 example_validator)) = Ret (true, 37079357).
Proof. split; vm_compute; reflexivity. Qed.

(** C4, amended: let the first call return [true] with counter [t] and
    let the second call run at the same time, on the same code, with
    [LastT] advanced to [t].  The second call never reports a match at
    [t] or below: a match it reports is at a later counter of the window
    that generates the same code.  When every later counter of the
    window generates another code (and the window ends below the largest
    [int]), the second call returns [false] with the current counter. *)
Theorem Validate_no_reuse (fuel : nat) (now : Time) (code : Z)
        (tc : TOTPValidator) (t : Z) :
  fst (ValidateTOTPCode fuel now code tc) = Ret (true, t) ->
  exists tMax cur : Z,
    tMaxOf tc now = Ret tMax /\ currentOf tc now = Ret cur /\
    (forall (fuel' : nat) (t' : Z),
       fst (ValidateTOTPCode fuel' now code (set_LastT t tc)) = Ret (true, t') ->
       t < t' <= tMax /\ codeAt tc t' = Ret code) /\
    (tMax < max_int64 ->
     (forall u, t < u <= tMax ->
                exists c : Z, codeAt tc u = Ret c /\ c <> code) ->
     exists n : nat, forall fuel' : nat,
       (n <= fuel')%nat ->
       fst (ValidateTOTPCode fuel' now code (set_LastT t tc)) = Ret (false, cur)).
Proof.
  intros H.
  apply Validate_true_inv in H as (tMin & tMax & Hmin & Hmax & _).
  destruct (timeSteps_returns (stepOf tc) now (timeSteps_step _ _ _ Hmin))
    as (cur & Hcur & _).
  exists tMax, cur. split; [exact Hmax|]. split; [exact Hcur|]. split.
  - intros fuel' t' H'.
    apply Validate_true_inv in H' as (tMin' & tMax' & _ & Hmax' & H').
    change (tMaxOf (set_LastT t tc) now) with (tMaxOf tc now) in Hmax'.
    rewrite Hmax in Hmax'. injection Hmax' as <-.
    apply search_sound in H' as (Hfloor & Hle & Hc).
    split; [split; assumption|exact Hc].
  - intros Hlt Hmiss.
    destruct (Validate_none now code (set_LastT t tc) tMin tMax Hmin Hmax Hlt)
      as (cur' & Hcur' & Hres).
    + intros u Hu Hfloor. apply Hmiss. cbn [set_LastT LastT] in Hfloor. lia.
    + change (currentOf (set_LastT t tc) now) with (timeSteps (stepOf tc) now)
        in Hcur'.
      rewrite Hcur in Hcur'. injection Hcur' as <-.
      exists (S (Z.to_nat (tMax - tMin + 1))). intros fuel' Hn.
      apply Hres. lia.
Qed.

(** Witness for C4: the RFC 6238 vector at Unix time 1111111109, without
    tolerances. *)
Lemma Validate_no_reuse_witness :
  exists tMax cur : Z,
    let tc := mkValidator rfc_key 0 0 0 0 (Some sha1.New) EightDigits in
    let now := Unix 1111111109 in
    tMaxOf tc now = Ret tMax /\ currentOf tc now = Ret cur /\
    (forall (fuel' : nat) (t' : Z),
       fst (ValidateTOTPCode fuel' now 7081804 (set_LastT 37037036 tc)) =
         Ret (true, t') ->
       37037036 < t' <= tMax /\ codeAt tc t' = Ret 7081804) /\
    (tMax < max_int64 ->
     (forall u, 37037036 < u <= tMax ->
                exists c : Z, codeAt tc u = Ret c /\ c <> 7081804) ->
     exists n : nat, forall fuel' : nat,
       (n <= fuel')%nat ->
       fst (ValidateTOTPCode fuel' now 7081804 (set_LastT 37037036 tc)) =
         Ret (false, cur)).
Proof.
  apply (Validate_no_reuse 1 (Unix 1111111109) 7081804
           (mkValidator rfc_key 0 0 0 0 (Some sha1.New) EightDigits) 37037036).
  vm_compute. reflexivity.
Defined.

(** ** The window at the end of the integers *)

Lemma far_window :
  tMinOf far_validator far_now = Ret max_int64 /\
  tMaxOf far_validator far_now = Ret max_int64 /\
  currentOf far_validator far_now = Ret max_int64.
Proof. repeat split; vm_compute; reflexivity. Qed.

Lemma sha1_code_nonneg (key : list byte) (u : Z) :
  exists c : Z,
    HOTPCode sha1.New key SixDigits (int64 u) = Ret c /\ 0 <= c < SixDigits.
Proof.
  exists (RFC4226.code sha1.New key SixDigits (int64 u)). split.
  - apply HOTPCode_code;
      [exact sha1_digest_ge20|unfold SixDigits; lia|apply int64_in].
  - unfold RFC4226.code. apply Z.mod_pos_bound. unfold SixDigits. lia.
Qed.

(** [t++] at the largest [int] starts over at the smallest: after
    [max_int64] the loop passes over the counters up to [LastT = 0] and
    then meets counter 1. *)
Lemma far_search (n : nat) :
  Z.of_nat n = 2 ^ 63 + 1 ->
  fst (search (S (n + 1)) sha1.New SixDigits max_int64 287082 max_int64
              far_validator) = Ret (Some 1).
Proof.
  intros Hn. rewrite search_S.
  replace (max_int64 <=? max_int64) with true by reflexivity.
  change (LastT far_validator) with 0. change (Key far_validator) with rfc_key.
  replace (max_int64 <=? 0) with false by reflexivity.
  replace (HOTPCode sha1.New rfc_key SixDigits (int64 max_int64))
    with (Ret (A := Z) 181742) by (vm_compute; reflexivity).
  replace (181742 =? 287082) with false by reflexivity.
  cbv beta iota. rewrite int_succ_max.
  rewrite (search_skip sha1.New SixDigits max_int64 287082 far_validator n 1
             min_int64);
    try (unfold in_int64, min_int64, max_int64; cbn [far_validator LastT]; lia).
  replace (min_int64 + Z.of_nat n) with 1 by (unfold min_int64; lia).
  rewrite search_S.
  replace (1 <=? max_int64) with true by reflexivity.
  change (LastT far_validator) with 0. change (Key far_validator) with rfc_key.
  replace (1 <=? 0) with false by reflexivity.
  replace (HOTPCode sha1.New rfc_key SixDigits (int64 1))
    with (Ret (A := Z) 287082) by (vm_compute; reflexivity).
  reflexivity.
Qed.

(** C3 at the failing input: the window is the single counter
    [max_int64], yet the call returns [true] with counter 1, which is
    not in the window; the loop went on past [tMax]. *)
Theorem Validate_leaves_window :
  tMinOf far_validator far_now = Ret max_int64 /\
  tMaxOf far_validator far_now = Ret max_int64 /\
  exists fuel : nat,
    fst (ValidateTOTPCode fuel far_now 287082 far_validator) = Ret (true, 1).
Proof.
  destruct far_window as (Hmin & Hmax & _).
  split; [exact Hmin|]. split; [exact Hmax|].
  exists (S (Z.to_nat (2 ^ 63 + 1) + 1)).
  rewrite Validate_unfold, Hmin, Hmax. cbn [bind].
  change (hashOf far_validator) with sha1.New.
  change (digitsOf far_validator) with SixDigits.
  rewrite far_search by (apply Z2Nat.id; lia).
  reflexivity.
Qed.

(** C6 at the failing input: no counter generates the code -1, the
    window is the single counter [max_int64], and the call does not
    return [false] with the current counter: the loop never stops. *)
Theorem Validate_never_returns :
  tMaxOf far_validator far_now = Ret max_int64 /\
  forall fuel : nat,
    fst (ValidateTOTPCode fuel far_now (-1) far_validator) = OutOfFuel.
Proof.
  destruct far_window as (Hmin & Hmax & _).
  split; [exact Hmax|]. intros fuel.
  rewrite Validate_unfold, Hmin, Hmax. cbn [bind].
  change (hashOf far_validator) with sha1.New.
  change (digitsOf far_validator) with SixDigits.
  rewrite (search_diverges sha1.New SixDigits max_int64 (-1) far_validator);
    [reflexivity|reflexivity| |unfold in_int64, min_int64, max_int64; lia].
  intros u _ _. destruct (sha1_code_nonneg (Key far_validator) u) as (c & Hc & Hr).
  exists c. split; [exact Hc|lia].
Qed.

(** ** Zero digits and zero step size *)

Lemma TOTPCode_zero_step (h : Hash) (key : list byte) (digits : Z) (t : Time) :
  TOTPCode h key digits 0 t = Panic DivideByZero.
Proof. reflexivity. Qed.

Lemma search_no_div0 (h : Hash) (d tMax code : Z) (tc : TOTPValidator) :
  uint32 d <> 0 ->
  forall (fuel : nat) (t : Z),
    fst (search fuel h d tMax code t tc) <> Panic DivideByZero.
Proof.
  intros Hd. induction fuel as [|fuel IH]; intros t; [discriminate|].
  rewrite search_S.
  destruct (t <=? tMax); [|discriminate].
  destruct (t <=? LastT tc); [apply IH|].
  pose proof (HOTPCode_no_div0 h (Key tc) d (int64 t) Hd) as Hc.
  destruct (HOTPCode h (Key tc) d (int64 t)) as [c|p|].
  - destruct (c =? code); [discriminate|apply IH].
  - cbn [fst]. congruence.
  - discriminate.
Qed.

Lemma stepOf_nonzero (tc : TOTPValidator) :
  in_int64 (StepSizeSeconds tc) -> int64 (stepOf tc) <> 0.
Proof.
  intros H. unfold stepOf.
  destruct (StepSizeSeconds tc =? 0) eqn:E; [discriminate|].
  apply Z.eqb_neq in E. now rewrite int64_id.
Qed.

Lemma digitsOf_nonzero (tc : TOTPValidator) :
  in_uint32 (Digits tc) -> uint32 (digitsOf tc) <> 0.
Proof.
  intros H. unfold digitsOf.
  destruct (Digits tc =? 0) eqn:E; [discriminate|].
  apply Z.eqb_neq in E. unfold uint32, in_uint32 in *.
  rewrite Z.mod_small; lia.
Qed.

Lemma Validate_no_div0 (fuel : nat) (now : Time) (code : Z) (tc : TOTPValidator) :
  in_uint32 (Digits tc) -> in_int64 (StepSizeSeconds tc) ->
  fst (ValidateTOTPCode fuel now code tc) <> Panic DivideByZero.
Proof.
  intros Hd Hs. rewrite Validate_unfold. unfold tMinOf, tMaxOf, currentOf.
  pose proof (stepOf_nonzero tc Hs) as Hstep.
  destruct (timeSteps_returns (stepOf tc) (Add now (int64 (- PastTolerance tc)))
              Hstep) as (tMin & -> & _).
  destruct (timeSteps_returns (stepOf tc) (Add now (FutureTolerance tc)) Hstep)
    as (tMax & -> & _).
  destruct (timeSteps_returns (stepOf tc) now Hstep) as (cur & -> & _).
  cbn [bind].
  pose proof (search_no_div0 (hashOf tc) (digitsOf tc) tMax code tc
                (digitsOf_nonzero tc Hd) fuel tMin) as Hsearch.
  destruct (fst (search _ _ _ _ _ _ _)) as [[r|]|p|]; cbn [bind];
    congruence || discriminate.
Qed.

(** C10: the generators take their arguments as they come.  With digit
    count 0, [HOTPCode] panics on the remainder by zero (the digest being
    long enough to get there); with step size 0, [TOTPCode] panics on the
    division by zero in [timeSteps].  [ValidateTOTPCode] never divides by
    zero: with both fields unset it answers as with [SixDigits] and a
    step of 30 seconds. *)
Theorem defaults_only_in_Validate :
  (forall (h : Hash) (key : list byte) (value : Z),
     digest_ge20 h -> HOTPCode h key 0 value = Panic DivideByZero) /\
  (forall (h : Hash) (key : list byte) (digits : Z) (t : Time),
     TOTPCode h key digits 0 t = Panic DivideByZero) /\
  (forall (fuel : nat) (now : Time) (code : Z) (tc : TOTPValidator),
     in_uint32 (Digits tc) -> in_int64 (StepSizeSeconds tc) ->
     fst (ValidateTOTPCode fuel now code tc) <> Panic DivideByZero) /\
  (forall (fuel : nat) (now : Time) (code : Z) (tc : TOTPValidator),
     Digits tc = 0 -> StepSizeSeconds tc = 0 ->
     fst (ValidateTOTPCode fuel now code tc) =
     fst (ValidateTOTPCode fuel now code
            (set_Digits SixDigits
               (set_StepSizeSeconds DefaultStepSizeSeconds tc)))).
Proof.
  split; [exact HOTPCode_zero_digits|].
  split; [exact TOTPCode_zero_step|].
  split; [exact Validate_no_div0|].
  intros fuel now code tc Hd Hs.
  apply Validate_config; try reflexivity.
  - unfold digitsOf. cbn [set_Digits set_StepSizeSeconds Digits]. now rewrite Hd.
  - unfold stepOf. cbn [set_Digits set_StepSizeSeconds StepSizeSeconds].
    now rewrite Hs.
Qed.

(** Witness for C10: SHA-1 and the RFC key. *)
Lemma defaults_only_in_Validate_witness :
  HOTPCode sha1.New rfc_key 0 1 = Panic DivideByZero /\
  TOTPCode sha1.New rfc_key SixDigits 0 (Unix 59) = Panic DivideByZero /\
  fst (ValidateTOTPCode 1 (Unix 59) 287082 (mkValidator rfc_key 0 0 0 0 None 0))
    <> Panic DivideByZero /\
  fst (ValidateTOTPCode 1 (Unix 59) 287082 (mkValidator rfc_key 0 0 0 0 None 0)) =
  fst (ValidateTOTPCode 1 (Unix 59) 287082
         (set_Digits SixDigits
            (set_StepSizeSeconds DefaultStepSizeSeconds
               (mkValidator rfc_key 0 0 0 0 None 0)))).
Proof.
  destruct defaults_only_in_Validate as (H1 & H2 & H3 & H4).
  split; [apply H1; exact sha1_digest_ge20|].
  split; [apply H2|].
  split; [apply H3; cbn [Digits StepSizeSeconds];
          unfold in_uint32, in_int64, min_int64, max_int64; lia|].
  apply H4; reflexivity.
Defined.

(** ** Vectors of the test suite *)

Example rfc4226_vectors :
  map (HOTPCode sha1.New rfc_key SixDigits) [0; 1; 2; 3; 4] =
  map Ret [755224; 287082; 359152; 969429; 338314].
Proof. vm_compute. reflexivity. Qed.

Example negative_counter :
  BigEndian.Write_int64 (-2) = [xff; xff; xff; xff; xff; xff; xff; xfe] /\
  HOTPCode sha1.New rfc_key SixDigits (-1) = Ret 94451.
Proof. split; vm_compute; reflexivity. Qed.

Example rfc6238_vector :
  TOTPCode sha1.New rfc_key EightDigits 30 (Unix 1111111109) = Ret 7081804 /\
  fst (ValidateTOTPCode 1 (Unix 1111111109) 7081804
         (mkValidator rfc_key 0 0 0 0 (Some sha1.New) EightDigits)) =
    Ret (true, 0x23523EC).
Proof. split; vm_compute; reflexivity. Qed.

Example package_example :
  TOTPCode sha1.New rfc_key SixDigits DefaultStepSizeSeconds (Unix 1111111109) =
    Ret 81804 /\
  fst (ValidateTOTPCode 3 (Unix 1111111109) 81804 example_validator) =
    Ret (true, 37037036) /\
  fst (ValidateTOTPCode 4 (Unix 1111111109) 81804
         (set_LastT 37037036 example_validator)) = Ret (false, 37037036).
Proof. repeat split; vm_compute; reflexivity. Qed.

(** * Further properties of the package *)

(** ** TOTPCode *)

(** X1: with a positive step size, [TOTPCode] is [HOTPCode] at the
    counter [t.Unix() / stepSizeSeconds], the quotient truncated toward
    zero. *)
Theorem TOTPCode_is_HOTPCode (h : Hash) (key : list byte) (digits : Z)
        (stepSizeSeconds : Z) (t : Time) :
  0 < stepSizeSeconds <= max_int64 ->
  TOTPCode h key digits stepSizeSeconds t =
  HOTPCode h key digits (Z.quot (Unix_of t) stepSizeSeconds).
Proof.
  intros Hs. unfold TOTPCode. rewrite timeSteps_quot by assumption.
  cbn [bind]. rewrite int64_id; [reflexivity|].
  pose proof (Unix_of_in t) as Hu.
  pose proof (quot_bounds (Unix_of t) stepSizeSeconds ltac:(lia)) as Hq.
  unfold in_int64, min_int64, max_int64 in *. lia.
Qed.

Lemma TOTPCode_is_HOTPCode_witness :
  TOTPCode sha1.New rfc_key EightDigits 30 (Unix 59) =
  HOTPCode sha1.New rfc_key EightDigits (Z.quot (Unix_of (Unix 59)) 30).
Proof.
  apply (TOTPCode_is_HOTPCode sha1.New rfc_key EightDigits 30 (Unix 59)).
  unfold max_int64. lia.
Defined.

(** X2: with a step size other than zero (a negative one included), a
    digit count [d] that is positive and a hash with digests of at least
    20 bytes, [TOTPCode] returns a code between 0 and [d - 1]. *)
Theorem TOTPCode_range (h : Hash) (key : list byte) (digits : Z)
        (stepSizeSeconds : Z) (t : Time) :
  digest_ge20 h -> 0 < digits < 2 ^ 32 ->
  in_int64 stepSizeSeconds -> stepSizeSeconds <> 0 ->
  exists code : Z,
    TOTPCode h key digits stepSizeSeconds t = Ret code /\
    0 <= code <= digits - 1.
Proof.
  intros Hh Hd Hin Hs. unfold TOTPCode.
  destruct (timeSteps_returns stepSizeSeconds t) as (q & -> & Hq).
  { now rewrite int64_id. }
  cbn [bind].
  exists (RFC4226.code h key digits (int64 q)). split.
  - apply HOTPCode_code; [assumption|assumption|apply int64_in].
  - unfold RFC4226.code.
    pose proof (Z.mod_pos_bound
                  (RFC4226.truncate (hmac.Sum h key (RFC4226.message (int64 q))))
                  digits ltac:(lia)).
    lia.
Qed.

Lemma TOTPCode_range_witness :
  exists code : Z,
    TOTPCode sha1.New rfc_key SixDigits (-30) (Unix 59) = Ret code /\
    0 <= code <= SixDigits - 1.
Proof.
  apply (TOTPCode_range sha1.New rfc_key SixDigits (-30) (Unix 59)).
  - exact sha1_digest_ge20.
  - unfold SixDigits. lia.
  - unfold in_int64, min_int64, max_int64. lia.
  - lia.
Defined.

(** X3: shorter codes are the low digits of longer ones: when the digit
    count [d1] divides [d2], the code for [d1] is the code for [d2]
    modulo [d1] (the six-digit code is the eight-digit code without its
    two leading digits). *)
Theorem HOTPCode_digits_divide (h : Hash) (key : list byte) (d1 d2 value : Z) :
  digest_ge20 h -> 0 < d1 -> 0 < d2 < 2 ^ 32 -> (d1 | d2) -> in_int64 value ->
  exists c2 : Z,
    HOTPCode h key d2 value = Ret c2 /\
    HOTPCode h key d1 value = Ret (c2 mod d1).
Proof.
  intros Hh H1 H2 Hdiv Hv.
  assert (Hle : d1 <= d2) by (apply Z.divide_pos_le; [lia|assumption]).
  exists (RFC4226.code h key d2 value). split.
  - now apply HOTPCode_code.
  - rewrite HOTPCode_code by (assumption || lia). f_equal.
    unfold RFC4226.code. symmetry. now apply Z.mod_mod_divide.
Qed.

Lemma HOTPCode_digits_divide_witness :
  exists c2 : Z,
    HOTPCode sha1.New rfc_key EightDigits 37037036 = Ret c2 /\
    HOTPCode sha1.New rfc_key SixDigits 37037036 = Ret (c2 mod SixDigits).
Proof.
  apply (HOTPCode_digits_divide sha1.New rfc_key SixDigits EightDigits 37037036).
  - exact sha1_digest_ge20.
  - unfold SixDigits. lia.
  - unfold EightDigits, SevenDigits, SixDigits. lia.
  - exists 100. reflexivity.
  - unfold in_int64, min_int64, max_int64. lia.
Defined.

(** ** The counter on the wire *)

Lemma be_value_Write_int64 (v : Z) :
  RFC4226.be_value (BigEndian.Write_int64 v) = uint64 v.
Proof.
  unfold BigEndian.Write_int64, BigEndian.PutUint64, RFC4226.be_value.
  cbn [fold_left]. rewrite !b2z_z2b, !Z.shiftr_div_pow2 by lia.
  unfold uint64.
  pose proof (Z.mod_pos_bound v (2 ^ 64) ltac:(lia)) as Hu.
  set (u := v mod 2 ^ 64) in *.
  change (2 ^ 56) with 72057594037927936. change (2 ^ 48) with 281474976710656.
  change (2 ^ 40) with 1099511627776. change (2 ^ 32) with 4294967296.
  change (2 ^ 24) with 16777216. change (2 ^ 16) with 65536.
  change (2 ^ 8) with 256. change (2 ^ 64) with 18446744073709551616 in Hu.
  Z.to_euclidean_division_equations. lia.
Qed.

(** X4: the eight bytes [HOTPCode] writes for the counter read back,
    most significant byte first, as the counter's two's complement; two
    different [int64] counters are never written as the same message. *)
Theorem Write_int64_injective (v w : Z) :
  in_int64 v -> in_int64 w ->
  RFC4226.be_value (BigEndian.Write_int64 v) = RFC4226.twos_complement64 v /\
  (BigEndian.Write_int64 v = BigEndian.Write_int64 w -> v = w).
Proof.
  intros Hv Hw. split.
  - rewrite be_value_Write_int64. now apply uint64_twos.
  - intros E. apply (f_equal RFC4226.be_value) in E.
    rewrite !be_value_Write_int64, !uint64_twos in E by assumption.
    unfold RFC4226.twos_complement64, in_int64, min_int64, max_int64 in *.
    destruct (0 <=? v) eqn:Ev; destruct (0 <=? w) eqn:Ew; lia.
Qed.

Lemma Write_int64_injective_witness :
  RFC4226.be_value (BigEndian.Write_int64 (-1)) = RFC4226.twos_complement64 (-1) /\
  (BigEndian.Write_int64 (-1) = BigEndian.Write_int64 1 -> -1 = 1).
Proof.
  apply (Write_int64_injective (-1) 1);
    unfold in_int64, min_int64, max_int64; lia.
Defined.

(** ** timeSteps *)

(** X5: counters follow the clock: with a positive step size a later
    instant never gets a smaller counter. *)
Theorem timeSteps_monotone (stepSize : Z) (t1 t2 : Time) :
  0 < stepSize <= max_int64 -> Unix_of t1 <= Unix_of t2 ->
  exists q1 q2 : Z,
    timeSteps stepSize t1 = Ret q1 /\ timeSteps stepSize t2 = Ret q2 /\
    q1 <= q2.
Proof.
  intros Hs Hle.
  exists (Z.quot (Unix_of t1) stepSize), (Z.quot (Unix_of t2) stepSize).
  rewrite !timeSteps_quot by assumption.
  repeat split. apply Z.quot_le_mono; lia.
Qed.

Lemma timeSteps_monotone_witness :
  exists q1 q2 : Z,
    timeSteps 30 (Unix (-59)) = Ret q1 /\ timeSteps 30 (Unix 59) = Ret q2 /\
    q1 <= q2.
Proof.
  apply (timeSteps_monotone 30 (Unix (-59)) (Unix 59)).
  - unfold max_int64. lia.
  - vm_compute. discriminate.
Defined.

(** X6: which instants share a counter, for a positive step size [s]:
    counter [k > 0] covers the [s] seconds from [k * s] on, counter
    [k < 0] the [s] seconds up to [k * s], and, the quotient being
    truncated, counter 0 covers the [2 * s - 1] seconds around the
    epoch. *)
Theorem timeSteps_span (stepSize : Z) (t : Time) (k : Z) :
  0 < stepSize <= max_int64 ->
  timeSteps stepSize t = Ret k <->
  (if 0 <? k then k * stepSize <= Unix_of t < (k + 1) * stepSize
   else if k <? 0 then (k - 1) * stepSize < Unix_of t <= k * stepSize
   else - stepSize < Unix_of t < stepSize).
Proof.
  intros Hs. rewrite timeSteps_quot by assumption.
  assert (E : Ret (Z.quot (Unix_of t) stepSize) = Ret k <->
              Z.quot (Unix_of t) stepSize = k)
    by (split; [intros H; now injection H|intros ->; reflexivity]).
  rewrite E. clear E. generalize (Unix_of t). intros a.
  destruct (0 <? k) eqn:Ep; [apply Z.ltb_lt in Ep|apply Z.ltb_ge in Ep].
  - Z.to_euclidean_division_equations. nia.
  - destruct (k <? 0) eqn:En; [apply Z.ltb_lt in En|apply Z.ltb_ge in En].
    + Z.to_euclidean_division_equations. nia.
    + assert (k = 0) by lia. subst k.
      Z.to_euclidean_division_equations. nia.
Qed.

Lemma timeSteps_span_witness :
  timeSteps 30 (Unix (-29)) = Ret 0 <->
  (if 0 <? 0 then 0 * 30 <= Unix_of (Unix (-29)) < (0 + 1) * 30
   else if 0 <? 0 then (0 - 1) * 30 < Unix_of (Unix (-29)) <= 0 * 30
   else - 30 < Unix_of (Unix (-29)) < 30).
Proof.
  apply (timeSteps_span 30 (Unix (-29)) 0).
  unfold max_int64. lia.
Defined.

(** ** What ValidateTOTPCode returns *)

(** X7: no false acceptance: when [ValidateTOTPCode] returns [true]
    with counter [r], the validator's hash, key and digit count generate
    exactly the candidate code at [r], and [r] is not beyond the upper
    end of the window. *)
Theorem Validate_sound (fuel : nat) (now : Time) (code : Z)
        (tc : TOTPValidator) (r : Z) :
  fst (ValidateTOTPCode fuel now code tc) = Ret (true, r) ->
  codeAt tc r = Ret code /\
  exists tMax : Z, tMaxOf tc now = Ret tMax /\ r <= tMax.
Proof.
  intros H. apply Validate_true_inv in H as (tMin & tMax & _ & Hmax & H).
  apply search_sound in H as (_ & Hle & Hc).
  split; [exact Hc|]. now exists tMax.
Qed.

Lemma Validate_sound_witness :
  codeAt (mkValidator rfc_key 0 0 0 0 (Some sha1.New) EightDigits) 1 =
    Ret 94287082 /\
  exists tMax : Z,
    tMaxOf (mkValidator rfc_key 0 0 0 0 (Some sha1.New) EightDigits) (Unix 59) =
      Ret tMax /\ 1 <= tMax.
Proof.
  apply (Validate_sound 1 (Unix 59) 94287082
           (mkValidator rfc_key 0 0 0 0 (Some sha1.New) EightDigits) 1).
  vm_compute. reflexivity.
Defined.

(** X8: the counter that comes with [false] is the current one,
    [timeSteps(stepSizeSeconds, now)], whatever the tolerances and the
    floor: it tells nothing about the window. *)
Theorem Validate_false_current (fuel : nat) (now : Time) (code : Z)
        (tc : TOTPValidator) (c : Z) :
  fst (ValidateTOTPCode fuel now code tc) = Ret (false, c) ->
  currentOf tc now = Ret c.
Proof.
  rewrite Validate_unfold.
  destruct (tMinOf tc now) as [tMin| |]; try discriminate.
  destruct (tMaxOf tc now) as [tMax| |]; try discriminate.
  cbn [bind].
  destruct (fst (search _ _ _ _ _ _ _)) as [[r|]| |]; try discriminate.
  cbn [bind]. destruct (currentOf tc now) as [cur| |]; try discriminate.
  cbn [bind]. intros E. now injection E as <-.
Qed.

Lemma Validate_false_current_witness :
  currentOf (set_LastT 37037036 example_validator) (Unix 1111111109) =
    Ret 37037036.
Proof.
  apply (Validate_false_current 4 (Unix 1111111109) 81804
           (set_LastT 37037036 example_validator) 37037036).
  vm_compute. reflexivity.
Defined.

(** ** Generate, then validate *)

Lemma Add_zero (t : Time) : wf_time t -> Add t 0 = t.
Proof.
  intros [Hs Hn]. unfold Add.
  change (Z.quot 0 1000000000) with 0. change (Z.rem 0 1000000000) with 0.
  cbv zeta. rewrite Z.add_0_r.
  replace (1000000000 <=? nsec t) with false by (symmetry; apply Z.leb_gt; lia).
  replace (nsec t <? 0) with false by (symmetry; apply Z.ltb_ge; lia).
  unfold addSec. cbv zeta. rewrite Z.add_0_r, (int64_id _ Hs), Z.ltb_irrefl.
  change (0 <? 0) with false. cbn [Bool.eqb]. now destruct t.
Qed.

(** X9: generate, then validate: without tolerances, the code
    [TOTPCode] generates for an instant (with the validator's hash, key,
    digit count and step size in force) is accepted at that instant, at
    its own counter, unless that counter is at or below [LastT]. *)
Theorem Validate_accepts_TOTPCode (fuel : nat) (now : Time) (code cur : Z)
        (tc : TOTPValidator) :
  wf_time now -> PastTolerance tc = 0 -> FutureTolerance tc = 0 ->
  TOTPCode (hashOf tc) (Key tc) (digitsOf tc) (stepOf tc) now = Ret code ->
  currentOf tc now = Ret cur -> LastT tc < cur ->
  (1 <= fuel)%nat ->
  fst (ValidateTOTPCode fuel now code tc) = Ret (true, cur).
Proof.
  intros Hwf Hp Hf Hcode Hcur Hfloor Hfuel.
  unfold TOTPCode in Hcode. unfold currentOf in Hcur.
  rewrite Hcur in Hcode. cbn [bind] in Hcode.
  apply (Validate_finds now code tc cur cur cur).
  - unfold tMinOf. rewrite Hp. change (int64 (- 0)) with 0.
    now rewrite Add_zero.
  - unfold tMaxOf. rewrite Hf. now rewrite Add_zero.
  - lia.
  - split; assumption.
  - intros u Hu. lia.
  - rewrite Z.sub_diag. exact Hfuel.
Qed.

Lemma Validate_accepts_TOTPCode_witness :
  fst (ValidateTOTPCode 1 (Unix 1111111109) 7081804
         (mkValidator rfc_key 0 0 0 0 (Some sha1.New) EightDigits)) =
  Ret (true, 37037036).
Proof.
  apply (Validate_accepts_TOTPCode 1 (Unix 1111111109) 7081804 37037036
           (mkValidator rfc_key 0 0 0 0 (Some sha1.New) EightDigits)).
  - unfold wf_time, in_int64, min_int64, max_int64. vm_compute.
    repeat split; discriminate.
  - reflexivity.
  - reflexivity.
  - vm_compute. reflexivity.
  - vm_compute. reflexivity.
  - cbn [LastT]. lia.
  - apply Nat.le_refl.
Defined.

(** ** The window *)

Lemma matches_dec (h : Hash) (d code : Z) (tc : TOTPValidator) (u : Z) :
  {matches h d code tc u} + {~ matches h d code tc u}.
Proof.
  unfold matches.
  destruct (Z_lt_dec (LastT tc) u) as [Hf|Hf]; [|right; tauto].
  destruct (HOTPCode h (Key tc) d (int64 u)) as [c| |].
  - destruct (Z.eq_dec c code) as [->|Hne]; [left; tauto|].
    right. intros [_ E]. injection E as E. contradiction.
  - right. intros [_ E]. discriminate.
  - right. intros [_ E]. discriminate.
Qed.

(** Below a counter that matches there is a first one. *)
Lemma first_matching (h : Hash) (d code : Z) (tc : TOTPValidator) (r : Z) :
  matches h d code tc r ->
  forall (n : nat) (t : Z),
    Z.to_nat (r - t) = n -> t <= r ->
    exists r0 : Z,
      t <= r0 <= r /\ matches h d code tc r0 /\
      (forall u, t <= u < r0 -> ~ matches h d code tc u).
Proof.
  intros Hr. induction n as [|n IH]; intros t Hn Htr.
  - assert (t = r) by lia. subst t. exists r.
    split; [lia|]. split; [assumption|]. intros u Hu. lia.
  - destruct (matches_dec h d code tc t) as [Hm|Hm].
    + exists t. split; [lia|]. split; [assumption|]. intros u Hu. lia.
    + destruct (IH (t + 1) ltac:(lia) ltac:(lia)) as (r0 & Hr0 & Hm0 & Hfirst).
      exists r0. split; [lia|]. split; [assumption|].
      intros u Hu. destruct (Z.eq_dec u t) as [->|Hne]; [assumption|].
      apply Hfirst. lia.
Qed.

(** A code that is good somewhere in the window, above the floor, is
    accepted there or earlier in the window. *)
Lemma Validate_accepts (now : Time) (code : Z) (tc : TOTPValidator)
      (tMin tMax c0 : Z) :
  digest_ge20 (hashOf tc) -> in_uint32 (Digits tc) ->
  tMinOf tc now = Ret tMin -> tMaxOf tc now = Ret tMax ->
  tMin <= c0 <= tMax -> LastT tc < c0 -> codeAt tc c0 = Ret code ->
  exists (r : Z) (n : nat),
    tMin <= r <= c0 /\
    forall fuel : nat,
      (n <= fuel)%nat ->
      fst (ValidateTOTPCode fuel now code tc) = Ret (true, r).
Proof.
  intros Hh Hd Hmin Hmax Hc0 Hfloor Hcode.
  destruct (first_matching (hashOf tc) (digitsOf tc) code tc c0
              (conj Hfloor Hcode) (Z.to_nat (c0 - tMin)) tMin eq_refl
              ltac:(lia)) as (r & Hr & Hm & Hfirst).
  exists r, (S (Z.to_nat (r - tMin))). split; [exact Hr|].
  intros fuel Hfuel.
  apply (Validate_finds now code tc tMin tMax r Hmin Hmax);
    [lia|exact Hm| |lia].
  intros u Hu. apply not_matching_missing; auto.
Qed.

(** X10: a code the validator generates at some counter of the window
    above [LastT] is accepted, at that counter or at an earlier counter
    of the window that generates the same code (digests of at least 20
    bytes). *)
Theorem Validate_complete (now : Time) (code : Z) (tc : TOTPValidator)
        (tMin tMax c0 : Z) :
  digest_ge20 (hashOf tc) -> in_uint32 (Digits tc) ->
  tMinOf tc now = Ret tMin -> tMaxOf tc now = Ret tMax ->
  tMin <= c0 <= tMax -> LastT tc < c0 -> codeAt tc c0 = Ret code ->
  exists (r : Z) (n : nat),
    tMin <= r <= c0 /\
    forall fuel : nat,
      (n <= fuel)%nat ->
      fst (ValidateTOTPCode fuel now code tc) = Ret (true, r).
Proof. exact (Validate_accepts now code tc tMin tMax c0). Qed.

Lemma Validate_complete_witness :
  exists (r : Z) (n : nat),
    37037035 <= r <= 37037037 /\
    forall fuel : nat,
      (n <= fuel)%nat ->
      fst (ValidateTOTPCode fuel (Unix 1111111109) 14050471
             (set_Digits EightDigits example_validator)) = Ret (true, r).
Proof.
  apply (Validate_complete (Unix 1111111109) 14050471
           (set_Digits EightDigits example_validator)
           37037035 37037037 37037037).
  - exact sha1_digest_ge20.
  - unfold in_uint32. cbn [set_Digits Digits].
    unfold EightDigits, SevenDigits, SixDigits. lia.
  - vm_compute. reflexivity.
  - vm_compute. reflexivity.
  - lia.
  - cbn [set_Digits example_validator LastT]. lia.
  - vm_compute. reflexivity.
Defined.

(** X11: for a window that ends below the largest [int], digests of at
    least 20 bytes and a digit count that fits [uint32]:
    [ValidateTOTPCode] returns [true] with [r] exactly when [r] is the
    first counter of [tMin .. tMax], both ends included, that is above
    [LastT] and generates the candidate code. *)
Theorem Validate_first_match (now : Time) (code : Z) (tc : TOTPValidator)
        (tMin tMax r : Z) :
  digest_ge20 (hashOf tc) -> in_uint32 (Digits tc) ->
  tMinOf tc now = Ret tMin -> tMaxOf tc now = Ret tMax ->
  tMax < max_int64 ->
  (exists fuel : nat, fst (ValidateTOTPCode fuel now code tc) = Ret (true, r)) <->
  (tMin <= r <= tMax /\
   (LastT tc < r /\ codeAt tc r = Ret code) /\
   forall u, tMin <= u < r -> ~ (LastT tc < u /\ codeAt tc u = Ret code)).
Proof. exact (Validate_window_spec now code tc tMin tMax r). Qed.

Lemma Validate_first_match_witness :
  (exists fuel : nat,
     fst (ValidateTOTPCode fuel (Unix 1111111109) 14050471
            (set_Digits EightDigits example_validator)) = Ret (true, 37037037)) <->
  (37037035 <= 37037037 <= 37037037 /\
   (LastT (set_Digits EightDigits example_validator) < 37037037 /\
    codeAt (set_Digits EightDigits example_validator) 37037037 = Ret 14050471) /\
   forall u, 37037035 <= u < 37037037 ->
             ~ (LastT (set_Digits EightDigits example_validator) < u /\
                codeAt (set_Digits EightDigits example_validator) u =
                  Ret 14050471)).
Proof.
  apply (Validate_first_match (Unix 1111111109) 14050471
           (set_Digits EightDigits example_validator)
           37037035 37037037 37037037).
  - exact sha1_digest_ge20.
  - unfold in_uint32. cbn [set_Digits Digits].
    unfold EightDigits, SevenDigits, SixDigits. lia.
  - vm_compute. reflexivity.
  - vm_compute. reflexivity.
  - unfold max_int64. lia.
Defined.

(** X12: for a window that ends below the largest [int], digests of at
    least 20 bytes and a digit count that fits [uint32]: when no counter
    of the window above [LastT] generates the candidate code,
    [ValidateTOTPCode] returns [false] with the current counter. *)
Theorem Validate_rejects (now : Time) (code : Z) (tc : TOTPValidator)
        (tMin tMax : Z) :
  digest_ge20 (hashOf tc) -> in_uint32 (Digits tc) ->
  tMinOf tc now = Ret tMin -> tMaxOf tc now = Ret tMax ->
  tMax < max_int64 ->
  (forall u, tMin <= u <= tMax -> LastT tc < u -> codeAt tc u <> Ret code) ->
  exists (cur : Z) (n : nat),
    currentOf tc now = Ret cur /\
    forall fuel : nat,
      (n <= fuel)%nat ->
      fst (ValidateTOTPCode fuel now code tc) = Ret (false, cur).
Proof.
  intros Hh Hd Hmin Hmax Hlt Hno.
  destruct (Validate_none now code tc tMin tMax Hmin Hmax Hlt)
    as (cur & Hcur & Hres).
  - intros u Hu. apply not_matching_missing; try assumption.
    intros [Hf Hc]. exact (Hno u Hu Hf Hc).
  - exists cur, (S (Z.to_nat (tMax - tMin + 1))). split; [exact Hcur|].
    intros fuel Hfuel. apply Hres. lia.
Qed.

Lemma codeAt_nonneg (key : list byte) (u c : Z) :
  c < 0 -> codeAt (mkValidator key 0 0 0 0 None 0) u <> Ret c.
Proof.
  intros Hneg E.
  destruct (sha1_code_nonneg key u) as (c' & Hc & Hr).
  unfold codeAt, hashOf, digitsOf in E. cbn [HashProvider Digits Key] in E.
  change (0 =? 0) with true in E. cbv iota in E.
  rewrite Hc in E. injection E as E. lia.
Qed.

Lemma Validate_rejects_witness :
  exists (cur : Z) (n : nat),
    currentOf (mkValidator rfc_key 0 0 0 0 None 0) (Unix 59) = Ret cur /\
    forall fuel : nat,
      (n <= fuel)%nat ->
      fst (ValidateTOTPCode fuel (Unix 59) (-1)
             (mkValidator rfc_key 0 0 0 0 None 0)) = Ret (false, cur).
Proof.
  apply (Validate_rejects (Unix 59) (-1) (mkValidator rfc_key 0 0 0 0 None 0) 1 1).
  - exact sha1_digest_ge20.
  - unfold in_uint32. cbn [Digits]. lia.
  - vm_compute. reflexivity.
  - vm_compute. reflexivity.
  - unfold max_int64. lia.
  - intros u _ _. apply codeAt_nonneg. lia.
Defined.

(** X13: an empty window ([tMax < tMin], as negative tolerances can
    make it) gives [false] with the current counter at once: no code is
    generated, so the hash, the key and the candidate do not matter. *)
Theorem Validate_empty_window (fuel : nat) (now : Time) (code : Z)
        (tc : TOTPValidator) (tMin tMax : Z) :
  tMinOf tc now = Ret tMin -> tMaxOf tc now = Ret tMax -> tMax < tMin ->
  (1 <= fuel)%nat ->
  exists cur : Z,
    currentOf tc now = Ret cur /\
    fst (ValidateTOTPCode fuel now code tc) = Ret (false, cur).
Proof.
  intros Hmin Hmax Hlt Hfuel.
  destruct (timeSteps_returns (stepOf tc) now (timeSteps_step _ _ _ Hmin))
    as (cur & Hcur & _).
  exists cur. split; [exact Hcur|].
  rewrite Validate_unfold, Hmin, Hmax. cbn [bind].
  destruct fuel as [|fuel]; [lia|]. rewrite search_S.
  replace (tMin <=? tMax) with false by (symmetry; apply Z.leb_gt; lia).
  cbn [fst bind]. unfold currentOf. now rewrite Hcur.
Qed.

Lemma Validate_empty_window_witness :
  exists cur : Z,
    currentOf (mkValidator rfc_key 0 (-60 * Second) 0 0 None 0) (Unix 1111111109)
      = Ret cur /\
    fst (ValidateTOTPCode 1 (Unix 1111111109) 81804
           (mkValidator rfc_key 0 (-60 * Second) 0 0 None 0)) = Ret (false, cur).
Proof.
  apply (Validate_empty_window 1 (Unix 1111111109) 81804
           (mkValidator rfc_key 0 (-60 * Second) 0 0 None 0) 37037038 37037036).
  - vm_compute. reflexivity.
  - vm_compute. reflexivity.
  - lia.
  - apply Nat.le_refl.
Defined.

(** X14: once [LastT] has reached the upper end of the window, nothing
    is accepted: [ValidateTOTPCode] returns [false] with the current
    counter without generating a code (window ending below the largest
    [int]). *)
Theorem Validate_floor_covers_window (now : Time) (code : Z)
        (tc : TOTPValidator) (tMin tMax : Z) :
  tMinOf tc now = Ret tMin -> tMaxOf tc now = Ret tMax ->
  tMax <= LastT tc -> tMax < max_int64 ->
  exists (cur : Z) (n : nat),
    currentOf tc now = Ret cur /\
    forall fuel : nat,
      (n <= fuel)%nat ->
      fst (ValidateTOTPCode fuel now code tc) = Ret (false, cur).
Proof.
  intros Hmin Hmax Hfloor Hlt.
  destruct (Validate_none now code tc tMin tMax Hmin Hmax Hlt)
    as (cur & Hcur & Hres).
  - intros u Hu Hf. lia.
  - exists cur, (S (Z.to_nat (tMax - tMin + 1))). split; [exact Hcur|].
    intros fuel Hfuel. apply Hres. lia.
Qed.

Lemma Validate_floor_covers_window_witness :
  exists (cur : Z) (n : nat),
    currentOf (set_LastT 0x23523EE example_validator) (Unix 1111111109) = Ret cur /\
    forall fuel : nat,
      (n <= fuel)%nat ->
      fst (ValidateTOTPCode fuel (Unix 1111111109) 14050471
             (set_LastT 0x23523EE example_validator)) = Ret (false, cur).
Proof.
  apply (Validate_floor_covers_window (Unix 1111111109) 14050471
           (set_LastT 0x23523EE example_validator) 37037035 37037037).
  - vm_compute. reflexivity.
  - vm_compute. reflexivity.
  - cbn [set_LastT LastT]. lia.
  - unfold max_int64. lia.
Defined.

(** ** Panics *)

Lemma search_no_panic (h : Hash) (d tMax code : Z) (tc : TOTPValidator) :
  (forall u, exists c : Z, HOTPCode h (Key tc) d (int64 u) = Ret c) ->
  forall (fuel : nat) (t : Z) (p : panic),
    fst (search fuel h d tMax code t tc) <> Panic p.
Proof.
  intros Htotal. induction fuel as [|fuel IH]; intros t p; [discriminate|].
  rewrite search_S.
  destruct (t <=? tMax); [|discriminate].
  destruct (t <=? LastT tc); [apply IH|].
  destruct (Htotal t) as (c & ->).
  destruct (c =? code); [discriminate|apply IH].
Qed.

(** X15: with a hash whose digests have at least 20 bytes and fields
    that fit their types, [ValidateTOTPCode] never panics, whatever the
    time, the candidate code, the tolerances and the floor: neither on a
    division by zero nor on the digest window. *)
Theorem Validate_no_panic (fuel : nat) (now : Time) (code : Z)
        (tc : TOTPValidator) (p : panic) :
  digest_ge20 (hashOf tc) -> in_uint32 (Digits tc) ->
  in_int64 (StepSizeSeconds tc) ->
  fst (ValidateTOTPCode fuel now code tc) <> Panic p.
Proof.
  intros Hh Hd Hs. rewrite Validate_unfold. unfold tMinOf, tMaxOf, currentOf.
  pose proof (stepOf_nonzero tc Hs) as Hstep.
  destruct (timeSteps_returns (stepOf tc) (Add now (int64 (- PastTolerance tc)))
              Hstep) as (tMin & -> & _).
  destruct (timeSteps_returns (stepOf tc) (Add now (FutureTolerance tc)) Hstep)
    as (tMax & -> & _).
  destruct (timeSteps_returns (stepOf tc) now Hstep) as (cur & -> & _).
  cbn [bind].
  assert (Htotal : forall u, exists c : Z,
            HOTPCode (hashOf tc) (Key tc) (digitsOf tc) (int64 u) = Ret c).
  { intros u. eexists. apply HOTPCode_code; [assumption| |apply int64_in].
    unfold digitsOf, in_uint32, SixDigits in *.
    destruct (Digits tc =? 0) eqn:E; [lia|]. apply Z.eqb_neq in E. lia. }
  pose proof (search_no_panic (hashOf tc) (digitsOf tc) tMax code tc Htotal
                fuel tMin) as Hsearch.
  destruct (fst (search _ _ _ _ _ _ _)) as [[r|]|q|]; cbn [bind];
    try discriminate.
  exfalso. exact (Hsearch q eq_refl).
Qed.

Lemma Validate_no_panic_witness :
  fst (ValidateTOTPCode 2 (Unix (-59)) 287082 (mkValidator [] (-1) 0 0 0 None 0))
    <> Panic IndexOutOfRange.
Proof.
  apply (Validate_no_panic 2 (Unix (-59)) 287082
           (mkValidator [] (-1) 0 0 0 None 0) IndexOutOfRange).
  - exact sha1_digest_ge20.
  - unfold in_uint32. cbn [Digits]. lia.
  - unfold in_int64, min_int64, max_int64. cbn [StepSizeSeconds]. lia.
Defined.

(** ** Moving the floor *)

(** X16: the floor only takes away: a code accepted with floor [LastT]
    is also accepted with any lower floor [L], at the same counter or an
    earlier one (window ending below the largest [int], digests of at
    least 20 bytes). *)
Theorem Validate_lower_floor (fuel : nat) (now : Time) (code : Z)
        (tc : TOTPValidator) (L r tMax : Z) :
  digest_ge20 (hashOf tc) -> in_uint32 (Digits tc) ->
  tMaxOf tc now = Ret tMax -> tMax < max_int64 -> L <= LastT tc ->
  fst (ValidateTOTPCode fuel now code tc) = Ret (true, r) ->
  exists (r' : Z) (n : nat),
    r' <= r /\
    forall fuel' : nat,
      (n <= fuel')%nat ->
      fst (ValidateTOTPCode fuel' now code (set_LastT L tc)) = Ret (true, r').
Proof.
  intros Hh Hd Hmax Hlt HL H.
  destruct (Validate_first now code tc fuel tMax r Hmax Hlt H)
    as (tMin & Hmin & Hr & [Hfloor Hcode] & _).
  destruct (Validate_accepts now code (set_LastT L tc) tMin tMax r)
    as (r' & n & Hr' & Hres); try assumption.
  - cbn [set_LastT LastT]. lia.
  - exists r', n. split; [lia|exact Hres].
Qed.

Lemma Validate_lower_floor_witness :
  exists (r' : Z) (n : nat),
    r' <= 37037037 /\
    forall fuel' : nat,
      (n <= fuel')%nat ->
      fst (ValidateTOTPCode fuel' (Unix 1111111109) 14050471
             (set_LastT 0
                (set_LastT 37037036 (set_Digits EightDigits example_validator))))
      = Ret (true, r').
Proof.
  apply (Validate_lower_floor 3 (Unix 1111111109) 14050471
           (set_LastT 37037036 (set_Digits EightDigits example_validator))
           0 37037037 37037037).
  - exact sha1_digest_ge20.
  - unfold in_uint32. cbn [set_LastT set_Digits Digits].
    unfold EightDigits, SevenDigits, SixDigits. lia.
  - vm_compute. reflexivity.
  - unfold max_int64. lia.
  - cbn [set_LastT LastT]. lia.
  - vm_compute. reflexivity.
Defined.
